(** * validate_json: the batch validator of [src/validate_json/main.py]

    The development embeds the script's functions as Rocq functions over
    the values Python's [json.load] produces, and states the properties
    of the pruner [remove_empty_from_dict], of the schema loader
    [schema_loader], of the per-document checks of [run_checker] and of
    the report builder [make_report].

    Conventions:
    - a Python [str] is a Rocq [string] holding its UTF-8 bytes;
    - a Python [dict] is an association list in insertion order with
      distinct keys ([Dict]);
    - a call that may raise returns an [outcome];
    - the JSON-Schema engine, the file system and the clock are the
      fields of class [Engine]. *)

From Stdlib Require Import List String Ascii ZArith Bool Lia.
From Stdlib Require Import Permutation Sorted SpecFloat OrderedTypeEx.
Import ListNotations.
Open Scope string_scope.
Open Scope list_scope.

(** ** Python dictionaries *)

Module Dict.

Definition dict (V : Type) : Type := list (string * V).

Definition keys {V} (d : dict V) : list string := map fst d.

(** [d.get(k)]: the value stored under [k], if any. *)
Fixpoint get {V} (d : dict V) (k : string) : option V :=
  match d with
  | [] => None
  | (k', v) :: rest => if String.eqb k k' then Some v else get rest k
  end.

(** [k in d]. *)
Definition mem {V} (d : dict V) (k : string) : bool :=
  match get d k with Some _ => true | None => false end.

(** [d[k] = v]: an existing key keeps its place and takes the new
    value, a new key goes last. *)
Fixpoint set {V} (d : dict V) (k : string) (v : V) : dict V :=
  match d with
  | [] => [(k, v)]
  | (k', v') :: rest =>
      if String.eqb k k' then (k', v) :: rest else (k', v') :: set rest k v
  end.

(** The keys of a dictionary are pairwise distinct. *)
Fixpoint distinct (l : list string) : bool :=
  match l with
  | [] => true
  | k :: rest => negb (existsb (String.eqb k) rest) && distinct rest
  end.

End Dict.

Import Dict.

(** ** JSON values as [json.load] returns them *)

Unset Elimination Schemes.

Inductive json : Type :=
| JNull                                   (* None *)
| JBool (b : bool)                        (* True, False *)
| JInt (z : Z)                            (* int *)
| JFloat (f : spec_float)                 (* float *)
| JStr (s : string)                       (* str *)
| JList (l : list json)                   (* list *)
| JDict (d : list (string * json)).       (* dict *)

Set Elimination Schemes.

(** Structural induction that reaches the elements of containers. *)
Definition json_ind (P : json -> Prop)
    (HNull : P JNull)
    (HBool : forall b, P (JBool b))
    (HInt : forall z, P (JInt z))
    (HFloat : forall f, P (JFloat f))
    (HStr : forall s, P (JStr s))
    (HList : forall l, Forall P l -> P (JList l))
    (HDict : forall d, Forall (fun kv => P (snd kv)) d -> P (JDict d)) :
  forall x, P x :=
  fix go (x : json) : P x :=
    match x with
    | JNull => HNull
    | JBool b => HBool b
    | JInt z => HInt z
    | JFloat f => HFloat f
    | JStr s => HStr s
    | JList l =>
        HList l ((fix elems (l : list json) : Forall P l :=
                    match l with
                    | [] => Forall_nil _
                    | v :: rest => Forall_cons v (go v) (elems rest)
                    end) l)
    | JDict d =>
        HDict d ((fix items (d : list (string * json))
                    : Forall (fun kv => P (snd kv)) d :=
                    match d with
                    | [] => Forall_nil _
                    | kv :: rest => Forall_cons kv (go (snd kv)) (items rest)
                    end) d)
    end.

(** A value is well formed when every mapping in it has distinct keys,
    as every Python [dict] has. *)
Fixpoint wf_json (x : json) : bool :=
  match x with
  | JList l =>
      (fix all (l : list json) : bool :=
         match l with
         | [] => true
         | v :: rest => wf_json v && all rest
         end) l
  | JDict d =>
      distinct (map fst d) &&
      (fix all (d : list (string * json)) : bool :=
         match d with
         | [] => true
         | (_, v) :: rest => wf_json v && all rest
         end) d
  | _ => true
  end.

(** ** Python primitives used by the pruner *)

(** [v is None]. *)
Definition is_None (v : json) : bool :=
  match v with JNull => true | _ => false end.

(** [v == ""]: only the empty [str] equals the empty string. *)
Definition eq_empty_str (v : json) : bool :=
  match v with JStr EmptyString => true | _ => false end.

(** [type(v) is int]: exact type, so a [bool] does not pass. *)
Definition type_is_int (v : json) : bool :=
  match v with JInt _ => true | _ => false end.

(** [type(v) is float]. *)
Definition type_is_float (v : json) : bool :=
  match v with JFloat _ => true | _ => false end.

(** [isinstance(v, str)]. *)
Definition isinstance_str (v : json) : bool :=
  match v with JStr _ => true | _ => false end.

(** [bool(v)], Python's truth value. *)
Definition truthy (v : json) : bool :=
  match v with
  | JNull => false
  | JBool b => b
  | JInt z => negb (Z.eqb z 0)
  | JFloat (S754_zero _) => false
  | JFloat _ => true
  | JStr s => negb (String.eqb s "")
  | JList l => match l with [] => false | _ => true end
  | JDict d => match d with [] => false | _ => true end
  end.

(** [str.isspace] on one character, given by its UTF-8 bytes: the
    white-space characters are U+0009..U+000D, U+001C..U+0020, U+0085,
    U+00A0, U+1680, U+2000..U+200A, U+2028, U+2029, U+202F, U+205F and
    U+3000. *)
Definition in_range (lo hi n : N) : bool := (N.leb lo n && N.leb n hi)%bool.

Definition space1 (c0 : ascii) : bool :=
  let n0 := N_of_ascii c0 in
  in_range 9 13 n0 || in_range 28 32 n0.

Definition space2 (c0 c1 : ascii) : bool :=
  let n0 := N_of_ascii c0 in
  let n1 := N_of_ascii c1 in
  N.eqb n0 194 && (N.eqb n1 133 || N.eqb n1 160).

Definition space3 (c0 c1 c2 : ascii) : bool :=
  let n0 := N_of_ascii c0 in
  let n1 := N_of_ascii c1 in
  let n2 := N_of_ascii c2 in
  (N.eqb n0 225 && N.eqb n1 154 && N.eqb n2 128)
  || (N.eqb n0 226 && N.eqb n1 128
      && (in_range 128 138 n2 || in_range 168 169 n2 || N.eqb n2 175))
  || (N.eqb n0 226 && N.eqb n1 129 && N.eqb n2 159)
  || (N.eqb n0 227 && N.eqb n1 128 && N.eqb n2 128).

(** [blank s]: [s.strip()] is the empty string, that is, [s] is made of
    white-space characters only. *)
Fixpoint blank (s : string) : bool :=
  match s with
  | EmptyString => true
  | String c0 s1 =>
      if space1 c0 then blank s1
      else match s1 with
      | EmptyString => false
      | String c1 s2 =>
          if space2 c0 c1 then blank s2
          else match s2 with
          | EmptyString => false
          | String c2 s3 => if space3 c0 c1 c2 then blank s3 else false
          end
      end
  end.

(** Truth value of [str(v).strip()].  For a string it is the string
    itself that is stripped; the text Python gives any other JSON value
    (["None"], ["True"], ["False"], the digits of a number, a bracketed
    list or dict) always holds a character that is not white space. *)
Definition str_strip (v : json) : bool :=
  match v with
  | JStr s => negb (blank s)
  | JNull | JBool _ | JInt _ | JFloat _ | JList _ | JDict _ => true
  end.

(** ** The pruner: [remove_empty_from_dict] (main.py, lines 30-52) *)

Fixpoint remove_empty_from_dict (d : json) : json :=
  match d with
  | JDict items =>
      JDict
        ((fix loop (items : list (string * json)) (_temp : dict json)
            : dict json :=
            match items with
            | [] => _temp
            | (k, v) :: rest =>
                loop rest
                  (if is_None v || eq_empty_str v then _temp
                   else if type_is_int v || type_is_float v
                   then set _temp k (remove_empty_from_dict v)
                   else if truthy v || truthy (remove_empty_from_dict v)
                   then set _temp k (remove_empty_from_dict v)
                   else _temp)
            end) items [])
  | JList l =>
      JList
        ((fix comprehension (l : list json) : list json :=
            match l with
            | [] => []
            | v :: rest =>
                if (str_strip v || str_strip (remove_empty_from_dict v))
                   && (negb (is_None v)
                       || negb (is_None (remove_empty_from_dict v)))
                then remove_empty_from_dict v :: comprehension rest
                else comprehension rest
            end) l)
  | _ => d
  end.

(** Top-level shape of the pruner on each kind of container, used to
    state its properties: the entries a mapping keeps and the elements a
    sequence keeps. *)
Definition keeps_value (v : json) : bool :=
  if is_None v || eq_empty_str v then false
  else if type_is_int v || type_is_float v then true
  else truthy v || truthy (remove_empty_from_dict v).

Definition keeps_element (v : json) : bool :=
  (str_strip v || str_strip (remove_empty_from_dict v))
  && (negb (is_None v) || negb (is_None (remove_empty_from_dict v))).

(** One iteration of the loop over [d.items()], and the entry it
    stores. *)
Definition prune_step (_temp : dict json) (kv : string * json) : dict json :=
  if keeps_value (snd kv)
  then set _temp (fst kv) (remove_empty_from_dict (snd kv))
  else _temp.

Definition pruned_entry (kv : string * json) : string * json :=
  (fst kv, remove_empty_from_dict (snd kv)).

(** [type(v) is int or type(v) is float]. *)
Definition is_number (v : json) : bool := type_is_int v || type_is_float v.

Definition nonempty {A : Type} (l : list A) : bool :=
  match l with [] => false | _ => true end.

(** The numeric leaves of a value, in document order. *)
Fixpoint numeric_leaves (x : json) : list json :=
  match x with
  | JInt _ | JFloat _ => [x]
  | JList l =>
      (fix elems (l : list json) : list json :=
         match l with
         | [] => []
         | v :: rest => numeric_leaves v ++ elems rest
         end) l
  | JDict d =>
      (fix items (d : list (string * json)) : list json :=
         match d with
         | [] => []
         | (_, v) :: rest => numeric_leaves v ++ items rest
         end) d
  | _ => []
  end.

(** [l'] is [l] with some elements left out, order kept. *)
Inductive Subseq {A : Type} : list A -> list A -> Prop :=
| Subseq_nil : Subseq [] []
| Subseq_skip : forall x l' l, Subseq l' l -> Subseq l' (x :: l)
| Subseq_keep : forall x l' l, Subseq l' l -> Subseq (x :: l') (x :: l).

(** ** Calls that may raise *)

Inductive fault : Type :=
| AttributeError
| KeyError
| TypeError
| EngineError (text : string).   (* an exception raised inside the engine *)

Inductive outcome (A : Type) : Type :=
| Return (a : A)
| Raise (f : fault).

Arguments Return {A} a.
Arguments Raise {A} f.

Definition bind {A B : Type} (c : outcome A) (k : A -> outcome B) : outcome B :=
  match c with
  | Return a => k a
  | Raise f => Raise f
  end.

Notation "x <- c ;; k" := (bind c (fun x => k))
  (at level 61, c at next level, right associativity).

(** [d.get(name)] and [d[name]] for a key that is a JSON value: a list
    or a dict is unhashable, a value that is not a string is not a key
    of a dictionary keyed by strings. *)
Definition py_get {V} (d : dict V) (name : json) : outcome (option V) :=
  match name with
  | JStr s => Return (get d s)
  | JList _ | JDict _ => Raise TypeError
  | _ => Return None
  end.

Definition py_item {V} (d : dict V) (name : json) : outcome V :=
  got <- py_get d name ;;
  match got with
  | Some v => Return v
  | None => Raise KeyError
  end.

(** [event_json.get(k)] on a parsed object: a missing key gives [None]. *)
Definition json_get (d : dict json) (k : string) : json :=
  match get d k with
  | Some v => v
  | None => JNull
  end.

(** ** [sorted(xs, key=...)]: stable, ascending by code points *)

Fixpoint insert_by {A : Type} (key : A -> string) (x : A) (l : list A)
  : list A :=
  match l with
  | [] => [x]
  | y :: rest =>
      if String.ltb (key y) (key x) then y :: insert_by key x rest
      else x :: y :: rest
  end.

Definition sorted {A : Type} (key : A -> string) (l : list A) : list A :=
  fold_right (insert_by key) [] l.

(** The order the sort establishes. *)
Definition ascending {A : Type} (key : A -> string) (a b : A) : Prop :=
  String.leb (key a) (key b) = true.

(** ** Text constants of the script *)

Definition LF : string := String (ascii_of_nat 10) EmptyString.
Definition TAB : string := String (ascii_of_nat 9) EmptyString.

Definition msg_unknown_error : string := "Неизвестная ошибка".
Definition msg_schema_invalid : string := "Схема некорректна: ".
Definition msg_no_event : string := "Не задана схема для проверки.".
Definition msg_event_not_str : string :=
  "В качестве названия схемы должна быть строка".
Definition msg_no_schema : string := "Указанной схемы не существует.".
Definition msg_schema_corrupted : string :=
  "В указанной схеме выявлены ошибки".
Definition msg_no_data : string := "Не указаны данные для проверки.".
Definition msg_not_json : string :=
  "Данный файл не соответствует формату JSON".
Definition msg_not_dict : string :=
  "Файл должен содержать словарь с данными в формате JSON".
Definition report_header (now : string) : string :=
  ("Проведена проверка " ++ now ++ LF)%string.
Definition schema_section : string := ("Выявлены ошибки схемы:" ++ LF)%string.
Definition json_section : string :=
  ("Выявлены ошибки JSON файла:" ++ LF)%string.
Definition schema_entry (name : string) : string :=
  (TAB ++ "В схеме " ++ name ++ " обнаружены ошибки:" ++ LF)%string.
Definition json_entry (name : string) : string :=
  (TAB ++ "В файле " ++ name ++ " обнаружены ошибки:" ++ LF)%string.
Definition error_line (error : string) : string :=
  (TAB ++ error ++ LF)%string.

(** ** The collaborators of the script *)

(** A conformance violation ([jsonschema.ValidationError]): its
    [message] and the text [str(error)] it is sorted by. *)
Record violation : Type := { message : string; text : string }.

(** What the script takes from its environment: the exceptions that
    loading can raise and their text, the files of a directory listing
    with their [stem], [open] followed by [json.load], the Draft 7
    engine ([check_schema], which returns the exception it raises if
    any, the [Draft7Validator] constructor, and [iter_errors], which
    yields the violations or raises, as it does for a reference it
    cannot resolve), Python's text for a value that is not a string,
    and the text of [datetime.now()].  The calls to [logger] change no
    value and are left out. *)
Class Engine : Type := {
  exn : Type;
  exn_str : exn -> string;
  path : Type;
  stem : path -> string;
  load_json : path -> exn + json;
  validator : Type;
  check_schema : json -> option exn;
  Draft7Validator : json -> exn + validator;
  iter_errors : validator -> json -> exn + list violation;
  py_str : json -> string;
  now : string
}.

Section Checker.

Context {E : Engine}.

(** The error a [CorruptedSchema] carries: the caught exception or an
    [UnknownError]. *)
Inductive error_obj : Type :=
| ExceptionObj (e : exn)
| UnknownError.

(** The objects met where a schema is expected: a compiled validator, an
    instance of class [CorruptedSchema], and the class itself. *)
Inductive schema_obj : Type :=
| Draft7ValidatorInstance (v : validator)
| CorruptedSchemaInstance (error : error_obj)
| CorruptedSchemaClass.

(** [CorruptedSchema(error)]: [self.error = error or UnknownError()];
    an exception object is truthy. *)
Definition CorruptedSchema (error : option exn) : schema_obj :=
  CorruptedSchemaInstance
    match error with
    | Some e => ExceptionObj e
    | None => UnknownError
    end.

Definition error_obj_str (error : error_obj) : string :=
  match error with
  | ExceptionObj e => exn_str e
  | UnknownError => msg_unknown_error
  end.

(** [CorruptedSchema.__str__]. *)
Definition CorruptedSchema_str (error : error_obj) : string :=
  (msg_schema_invalid ++ error_obj_str error)%string.

(** [isinstance(v, CorruptedSchema)]. *)
Definition isinstance_CorruptedSchema (v : schema_obj) : bool :=
  match v with CorruptedSchemaInstance _ => true | _ => false end.

(** [v is CorruptedSchema]: identity with the class object. *)
Definition is_CorruptedSchema (v : schema_obj) : bool :=
  match v with CorruptedSchemaClass => true | _ => false end.

(** A pass over a listing that stores [f p] under the stem of each
    file [p]: the shape of the loop of [schema_loader] and of the
    comprehension that opens [run_checker]. *)
Definition pass {V : Type} (f : path -> V) (listing : list path)
    (acc : dict V) : dict V :=
  fold_left (fun d p => set d (stem p) (f p)) listing acc.

(** *** [schema_loader] (lines 62-77) *)

(** The body of the [try]: what is stored on success, or the exception
    raised by [open], [json.load], [check_schema] or the constructor. *)
Definition load_schema (schema_path : path) : exn + schema_obj :=
  match load_json schema_path with
  | inl err => inl err
  | inr json_schema =>
      match check_schema json_schema with
      | Some err => inl err
      | None =>
          match Draft7Validator json_schema with
          | inl err => inl err
          | inr val => inr (Draft7ValidatorInstance val)
          end
      end
  end.

(** The entry one loop iteration stores under the file's stem. *)
Definition loaded_entry (schema_path : path) : schema_obj :=
  match load_schema schema_path with
  | inr v => v
  | inl err => CorruptedSchema (Some err)
  end.

(** [schema_loader()], on the listing [PATH_TO_SHEMA.iterdir()]. *)
Definition schema_loader (listing : list path) : dict schema_obj :=
  fold_left
    (fun schemas schema_path =>
       let filename := stem schema_path in
       set schemas filename (loaded_entry schema_path))
    listing [].

(** *** The checks on a document (lines 80-128, 180-193) *)

Definition reader (p : path) : exn + json := load_json p.

Definition check_event_key (event : json) : list string :=
  if is_None event then [msg_no_event]
  else if negb (isinstance_str event) then [msg_event_not_str]
  else [].

Definition check_schema_key (name : json) (schemas : dict schema_obj)
  : outcome (list string) :=
  got <- py_get schemas name ;;
  match got with
  | None => Return [msg_no_schema]
  | Some _ =>
      v <- py_item schemas name ;;
      if is_CorruptedSchema v then Return [msg_schema_corrupted]
      else Return []
  end.

Definition check_data_key (data : json) : list string :=
  if is_None data then [msg_no_data] else [].

(** [check_data]: only a validator has [iter_errors], and nothing
    catches what [iter_errors] raises. *)
Definition check_data (data : json) (v : schema_obj) : outcome (list string) :=
  match v with
  | Draft7ValidatorInstance val =>
      match iter_errors val data with
      | inr violations => Return (map message (sorted text violations))
      | inl err => Raise (EngineError (exn_str err))
      end
  | CorruptedSchemaInstance _ | CorruptedSchemaClass => Raise AttributeError
  end.

(** *** [run_checker] (lines 131-177) *)

(** One iteration of the loop over the documents: [file_error_list] is
    the list stored under the file's stem, the result is that list
    after the iteration. *)
Definition run_checker_body (schemas : dict schema_obj)
    (file_error_list : list string) (event_path : path)
  : outcome (list string) :=
  match reader event_path with
  | inl _ => Return (file_error_list ++ [msg_not_json])
  | inr (JDict event_json) =>
      let event_errors := check_event_key (json_get event_json "event") in
      let file_error_list := file_error_list ++ event_errors in
      let data_errors := check_data_key (json_get event_json "data") in
      let file_error_list := file_error_list ++ data_errors in
      if nonempty event_errors then Return file_error_list
      else
        event <- py_item event_json (JStr "event") ;;
        schema_name_errors <- check_schema_key event schemas ;;
        let file_error_list := file_error_list ++ schema_name_errors in
        if nonempty schema_name_errors || nonempty data_errors
        then Return file_error_list
        else
          data <- py_item event_json (JStr "data") ;;
          event <- py_item event_json (JStr "event") ;;
          v <- py_item schemas event ;;
          found <- check_data data v ;;
          Return (file_error_list ++ found)
  | inr _ => Return (file_error_list ++ [msg_not_dict])
  end.

(** The loop: the lists live in [errors], one per stem, and an
    iteration extends the list of its file's stem in place. *)
Fixpoint run_checker_loop (schemas : dict schema_obj)
    (files_paths : list path) (errors : dict (list string))
  : outcome (dict (list string)) :=
  match files_paths with
  | [] => Return errors
  | event_path :: rest =>
      file_error_list <- py_item errors (JStr (stem event_path)) ;;
      file_error_list <- run_checker_body schemas file_error_list event_path ;;
      run_checker_loop schemas rest
        (set errors (stem event_path) file_error_list)
  end.

(** [{path.stem: [] for path in files_paths}]. *)
Definition empty_errors (files_paths : list path) : dict (list string) :=
  fold_left (fun errors p => set errors (stem p) []) files_paths [].

(** [{k: f'{v}' for k, v in schemas.items()
      if isinstance(v, CorruptedSchema)}]. *)
Definition schema_errors (schemas : dict schema_obj) : dict json :=
  fold_left
    (fun acc kv =>
       match snd kv with
       | CorruptedSchemaInstance error =>
           set acc (fst kv) (JStr (CorruptedSchema_str error))
       | _ => acc
       end)
    schemas [].

(** The error lists as the JSON-like value they are. *)
Definition json_errors (errors : dict (list string)) : dict json :=
  map (fun kv => (fst kv, JList (map JStr (snd kv)))) errors.

Definition result_of (schemas : dict schema_obj)
    (errors : dict (list string)) : json :=
  JDict [("schema_errors", JDict (schema_errors schemas));
         ("json_errors", JDict (json_errors errors))].

(** [run_checker(schemas)], on the listing [PATH_TO_EVENT.iterdir()]. *)
Definition run_checker (schemas : dict schema_obj) (files_paths : list path)
  : outcome json :=
  errors <- run_checker_loop schemas files_paths (empty_errors files_paths) ;;
  Return (result_of schemas errors).

(** *** [make_report] (lines 196-215) and [main] (lines 228-242) *)

(** [k in c] for a string [k]. *)
Definition py_contains (c : json) (k : string) : outcome bool :=
  match c with
  | JDict d => Return (mem d k)
  | JList l =>
      Return (existsb
                (fun v => match v with JStr s => String.eqb s k | _ => false end)
                l)
  | JStr s =>
      Return match String.index 0 k s with Some _ => true | None => false end
  | _ => Raise TypeError
  end.

(** [c[k]] for a string [k]: only a dict is indexed by strings. *)
Definition py_subscript (c : json) (k : string) : outcome json :=
  match c with
  | JDict d => py_item d (JStr k)
  | _ => Raise TypeError
  end.

(** [c.items()]: only a dict has the method. *)
Definition py_items (c : json) : outcome (list (string * json)) :=
  match c with
  | JDict d => Return d
  | _ => Raise AttributeError
  end.

(** The characters of a string: a UTF-8 continuation byte (10xxxxxx)
    belongs to the character begun before it. *)
Fixpoint characters (s : string) : list string :=
  match s with
  | EmptyString => []
  | String c rest =>
      match characters rest with
      | (String c' tail) :: more =>
          if in_range 128 191 (N_of_ascii c')
          then String c (String c' tail) :: more
          else String c EmptyString :: String c' tail :: more
      | other => String c EmptyString :: other
      end
  end.

(** [for x in c]: the elements of a list, the keys of a dict, the
    characters of a string. *)
Definition py_iter (c : json) : outcome (list json) :=
  match c with
  | JList l => Return l
  | JDict d => Return (map (fun kv => JStr (fst kv)) d)
  | JStr s => Return (map JStr (characters s))
  | _ => Raise TypeError
  end.

(** [f"{v}"]. *)
Definition format_value (v : json) : string :=
  match v with
  | JStr s => s
  | _ => py_str v
  end.

Fixpoint report_json_errors (entries : list (string * json))
    (res : list string) : outcome (list string) :=
  match entries with
  | [] => Return res
  | (name, errors) :: rest =>
      let res := res ++ [json_entry name] in
      errors <- py_iter errors ;;
      report_json_errors rest
        (res ++ map (fun error => error_line (format_value error)) errors)
  end.

Definition report_schema_errors (entries : list (string * json))
    (res : list string) : list string :=
  fold_left
    (fun res kv =>
       res ++ [schema_entry (fst kv); error_line (format_value (snd kv))])
    entries res.

Definition make_report (result : json) : outcome (list string) :=
  let res := [report_header now; LF] in
  has_schema_errors <- py_contains result "schema_errors" ;;
  res <- (if has_schema_errors : bool then
            section <- py_subscript result "schema_errors" ;;
            entries <- py_items section ;;
            Return (report_schema_errors entries (res ++ [schema_section]))
          else Return res) ;;
  has_json_errors <- py_contains result "json_errors" ;;
  if has_json_errors : bool then
    section <- py_subscript result "json_errors" ;;
    entries <- py_items section ;;
    report_json_errors entries (res ++ [json_section])
  else Return res.

(** [main()], from the two listings that [iterdir()] yields to the
    lines handed to [write_report].  The value of [validate_path()] is
    dropped by the script and plays no part.  A directory that cannot
    be listed ([iterdir()] raises in [schema_loader] and in
    [run_checker], outside any [try]) and a report file that cannot be
    written end the script too; they lie before and after what is
    modelled here. *)
Definition main (schema_listing event_listing : list path)
  : outcome (list string) :=
  let schemas := schema_loader schema_listing in
  result <- run_checker schemas event_listing ;;
  let res := remove_empty_from_dict result in
  make_report res.

End Checker.

(** ** A small concrete environment

    Files are given with their stem and with what [open] and
    [json.load] make of them; a schema is accepted when it is a JSON
    object; the engine knows the keyword [required], and raises on a
    schema that holds a [$ref], which it cannot resolve. *)

Record file : Type := { file_stem : string; file_load : string + json }.

Definition required_names (schema : json) : list string :=
  match schema with
  | JDict d =>
      match get d "required" with
      | Some (JList names) =>
          flat_map (fun n => match n with JStr s => [s] | _ => [] end) names
      | _ => []
      end
  | _ => []
  end.

Definition missing_property (name : string) : violation :=
  {| message := ("'" ++ name ++ "' is a required property")%string;
     text := ("'" ++ name ++ "' is a required property" ++ LF
              ++ "Failed validating 'required' in schema")%string |}.

Definition toy_iter_errors (schema data : json) : list violation :=
  match data with
  | JDict d =>
      flat_map
        (fun n => if mem d n then [] else [missing_property n])
        (required_names schema)
  | _ => []
  end.

Definition toy_engine (schema data : json) : string + list violation :=
  match schema with
  | JDict d =>
      if mem d "$ref" then inl "Unresolvable JSON pointer"
      else inr (toy_iter_errors schema data)
  | _ => inr (toy_iter_errors schema data)
  end.

Definition toy : Engine :=
  {| exn := string;
     exn_str := fun e => e;
     path := file;
     stem := file_stem;
     load_json := file_load;
     validator := json;
     check_schema :=
       fun j => match j with
                | JDict _ => None
                | _ => Some "schema is not of type 'object', 'boolean'"
                end;
     Draft7Validator := fun j => inr j;
     iter_errors := toy_engine;
     py_str := fun _ => "?";
     now := "2020-01-01 00:00:00" |}.

(** Sample schema and document files. *)
Definition user_schema : json :=
  JDict [("type", JStr "object");
         ("required", JList [JStr "name"; JStr "age"]);
         ("properties", JDict [("name", JDict [("type", JStr "string")])])].

Definition user_json : file :=
  {| file_stem := "user"; file_load := inr user_schema |}.

Definition bad_json : file :=
  {| file_stem := "bad"; file_load := inl "Expecting value" |}.

Definition doc1 : file :=
  {| file_stem := "doc1";
     file_load :=
       inr (JDict [("event", JStr "user");
                   ("data", JDict [("name", JStr "Alice"); ("age", JInt 30)])]) |}.

Definition doc2 : file :=
  {| file_stem := "doc2";
     file_load := inr (JDict [("event", JStr "user"); ("data", JDict [])]) |}.

Definition doc_bad : file :=
  {| file_stem := "doc_bad";
     file_load := inr (JDict [("event", JStr "bad"); ("data", JDict [])]) |}.

Definition doc_bad_no_data : file :=
  {| file_stem := "doc_bad_no_data";
     file_load := inr (JDict [("event", JStr "bad"); ("data", JNull)]) |}.

(** A second file with the stem of [doc2], which is not JSON. *)
Definition doc2_txt : file :=
  {| file_stem := "doc2"; file_load := inl "Expecting value" |}.

(** A schema that passes [check_schema] and cannot be evaluated, and a
    document that names it. *)
Definition ref_json : file :=
  {| file_stem := "ref";
     file_load := inr (JDict [("$ref", JStr "#/definitions/nope")]) |}.

Definition doc_ref : file :=
  {| file_stem := "doc_ref";
     file_load := inr (JDict [("event", JStr "ref"); ("data", JDict [])]) |}.

(** ** Shapes of pruned values *)

(** [v is False]. *)
Definition is_False (v : json) : bool :=
  match v with JBool false => true | _ => false end.

(** The empty mapping and the empty sequence. *)
Definition is_empty_container (v : json) : bool :=
  match v with JList [] | JDict [] => true | _ => false end.

(** What a mapping never holds and what a sequence never holds after
    pruning, at any depth: no mapping value is null, the empty string
    or [False]; no sequence element is null or a blank string. *)
Fixpoint pruned_form (x : json) : bool :=
  match x with
  | JList l =>
      (fix all (l : list json) : bool :=
         match l with
         | [] => true
         | v :: rest =>
             negb (is_None v) && str_strip v && pruned_form v && all rest
         end) l
  | JDict d =>
      (fix all (d : list (string * json)) : bool :=
         match d with
         | [] => true
         | (_, v) :: rest =>
             negb (is_None v) && negb (eq_empty_str v) && negb (is_False v)
             && pruned_form v && all rest
         end) d
  | _ => true
  end.

(** No mapping, at any depth, has an empty mapping or an empty sequence
    as a value. *)
Fixpoint settled (x : json) : bool :=
  match x with
  | JList l =>
      (fix all (l : list json) : bool :=
         match l with
         | [] => true
         | v :: rest => settled v && all rest
         end) l
  | JDict d =>
      (fix all (d : list (string * json)) : bool :=
         match d with
         | [] => true
         | (_, v) :: rest =>
             negb (is_empty_container v) && settled v && all rest
         end) d
  | _ => true
  end.

(** ** The lines of a report, in closed form *)

Section ReportLines.

Context {E : Engine}.

(** The entries [schema_errors] takes from a registry. *)
Definition corrupted_entries (schemas : dict schema_obj) : dict json :=
  flat_map
    (fun kv =>
       match snd kv with
       | CorruptedSchemaInstance error =>
           [(fst kv, JStr (CorruptedSchema_str error))]
       | _ => []
       end)
    schemas.

(** Two lines per schema error. *)
Definition schema_lines (entries : dict json) : list string :=
  flat_map
    (fun kv => [schema_entry (fst kv); error_line (format_value (snd kv))])
    entries.

(** The error lists that pass the pruner: the lists that are not
    empty, each without its blank messages. *)
Definition kept_errors (errors : dict (list string)) : dict (list string) :=
  map (fun kv => (fst kv, filter (fun m => negb (blank m)) (snd kv)))
    (filter (fun kv => nonempty (snd kv)) errors).

(** For each file, its heading and one line per error. *)
Definition json_lines (errors : dict (list string)) : list string :=
  flat_map (fun kv => json_entry (fst kv) :: map error_line (snd kv)) errors.

Definition report_lines (schemas : dict schema_obj)
    (errors : dict (list string)) : list string :=
  [report_header now; LF]
  ++ (if nonempty (schema_errors schemas)
      then schema_section :: schema_lines (schema_errors schemas)
      else [])
  ++ (if nonempty errors
      then json_section :: json_lines (kept_errors errors)
      else []).

End ReportLines.

(** * Properties *)

(** ** Dictionaries *)

Lemma distinct_NoDup (l : list string) : distinct l = true <-> NoDup l.
Proof.
  induction l as [|k rest IH]; simpl.
  - split; [constructor | reflexivity].
  - rewrite andb_true_iff, negb_true_iff, IH. split.
    + intros [Hk Hrest]. constructor; [|assumption].
      intro Hin.
      assert (existsb (String.eqb k) rest = true) as Hex.
      { apply existsb_exists. exists k. split; [assumption|apply String.eqb_refl]. }
      congruence.
    + intro Hnd. inversion Hnd as [|? ? Hk Hrest]; subst. split; [|assumption].
      destruct (existsb (String.eqb k) rest) eqn:Hex; [|reflexivity].
      apply existsb_exists in Hex. destruct Hex as [k' [Hin Heq]].
      apply String.eqb_eq in Heq. subst. contradiction.
Qed.

Lemma get_In {V} (d : dict V) (k : string) (v : V) :
  get d k = Some v -> In (k, v) d.
Proof.
  induction d as [|[k' v'] rest IH]; simpl; [discriminate|].
  destruct (String.eqb_spec k k') as [->|Hne].
  - intro H. injection H as ->. now left.
  - intro H. right. auto.
Qed.

Lemma get_None {V} (d : dict V) (k : string) :
  get d k = None <-> ~ In k (keys d).
Proof.
  induction d as [|[k' v'] rest IH]; simpl.
  - split; [auto|reflexivity].
  - destruct (String.eqb_spec k k') as [->|Hne].
    + split; [discriminate|]. intro H. exfalso. apply H. now left.
    + rewrite IH. split.
      * intros H [Heq|Hin]; [congruence|contradiction].
      * intros H Hin. apply H. now right.
Qed.

Lemma set_fresh {V} (d : dict V) (k : string) (v : V) :
  ~ In k (keys d) -> set d k v = d ++ [(k, v)].
Proof.
  induction d as [|[k' v'] rest IH]; simpl; [reflexivity|].
  intro H. destruct (String.eqb_spec k k') as [->|Hne].
  - exfalso. apply H. now left.
  - rewrite IH; [reflexivity|]. intro Hin. apply H. now right.
Qed.

Lemma get_set_same {V} (d : dict V) (k : string) (v : V) :
  get (set d k v) k = Some v.
Proof.
  induction d as [|[k' v'] rest IH]; simpl.
  - now rewrite String.eqb_refl.
  - destruct (String.eqb_spec k k') as [->|Hne]; simpl.
    + now rewrite String.eqb_refl.
    + destruct (String.eqb_spec k k'); [contradiction|assumption].
Qed.

Lemma get_set_other {V} (d : dict V) (k k' : string) (v : V) :
  k' <> k -> get (set d k v) k' = get d k'.
Proof.
  intro Hne. induction d as [|[k0 v0] rest IH]; simpl.
  - destruct (String.eqb_spec k' k); [contradiction|reflexivity].
  - destruct (String.eqb_spec k k0) as [->|Hne0]; simpl.
    + destruct (String.eqb_spec k' k0); [contradiction|reflexivity].
    + destruct (String.eqb_spec k' k0); [reflexivity|assumption].
Qed.

Lemma keys_set {V} (d : dict V) (k : string) (v : V) :
  keys (set d k v) = if mem d k then keys d else keys d ++ [k].
Proof.
  unfold mem. induction d as [|[k0 v0] rest IH]; simpl; [reflexivity|].
  destruct (String.eqb_spec k k0) as [->|Hne]; simpl; [reflexivity|].
  rewrite IH. now destruct (get rest k).
Qed.

Lemma mem_In {V} (d : dict V) (k : string) :
  mem d k = true <-> In k (keys d).
Proof.
  unfold mem. destruct (get d k) eqn:Hg.
  - split; [|reflexivity]. intros _. apply get_In in Hg.
    change k with (fst (k, v)). now apply in_map.
  - apply get_None in Hg. split; [discriminate|contradiction].
Qed.

Lemma NoDup_keys_set {V} (d : dict V) (k : string) (v : V) :
  NoDup (keys d) -> NoDup (keys (set d k v)).
Proof.
  intro Hnd. rewrite keys_set. destruct (mem d k) eqn:Hm; [assumption|].
  assert (~ In k (keys d)) as Hk.
  { intro Hin. apply mem_In in Hin. congruence. }
  clear Hm. induction (keys d) as [|k0 ks IH]; simpl.
  - constructor; [auto|constructor].
  - inversion Hnd as [|? ? Hk0 Hks]; subst. constructor.
    + rewrite in_app_iff. intros [Hin|[Heq|[]]]; [contradiction|].
      subst. apply Hk. now left.
    + apply IH; [assumption|]. intro Hin. apply Hk. now right.
Qed.

(** ** The pruner *)

Lemma remove_dict_loop (items : list (string * json)) :
  remove_empty_from_dict (JDict items) = JDict (fold_left prune_step items []).
Proof.
  simpl. f_equal. generalize (@nil (string * json)) as acc.
  induction items as [|[k v] rest IH]; intro acc; simpl; [reflexivity|].
  rewrite IH. f_equal. unfold prune_step, keeps_value. simpl.
  destruct (is_None v || eq_empty_str v); [reflexivity|].
  destruct (type_is_int v || type_is_float v); reflexivity.
Qed.

Lemma remove_list_filter (l : list json) :
  remove_empty_from_dict (JList l)
  = JList (map remove_empty_from_dict (filter keeps_element l)).
Proof.
  simpl. f_equal. induction l as [|v rest IH]; simpl; [reflexivity|].
  unfold keeps_element at 1.
  destruct ((str_strip v || str_strip (remove_empty_from_dict v))
            && (negb (is_None v) || negb (is_None (remove_empty_from_dict v))));
    simpl; now rewrite IH.
Qed.

(** With distinct keys every assignment of the loop adds a new entry. *)
Lemma prune_loop_distinct (items : list (string * json)) (acc : dict json) :
  NoDup (keys items) ->
  (forall k, In k (keys acc) -> ~ In k (keys items)) ->
  fold_left prune_step items acc
  = acc ++ map pruned_entry (filter (fun kv => keeps_value (snd kv)) items).
Proof.
  revert acc. induction items as [|[k v] rest IH]; intros acc Hnd Hdisj; simpl.
  - now rewrite app_nil_r.
  - inversion Hnd as [|? ? Hk Hrest]; subst.
    unfold prune_step at 2. simpl.
    destruct (keeps_value v) eqn:Hkeep.
    + assert (~ In k (keys acc)) as Hfresh.
      { intro Hin. apply (Hdisj k Hin). now left. }
      rewrite set_fresh by assumption. rewrite IH; [|assumption|].
      * simpl. now rewrite <- app_assoc.
      * intros k' Hin. unfold keys in Hin. rewrite map_app, in_app_iff in Hin.
        destruct Hin as [Hin|[<-|[]]]; [|assumption].
        intro Hin'. apply (Hdisj k' Hin). now right.
    + apply IH; [assumption|].
      intros k' Hin Hin'. apply (Hdisj k' Hin). now right.
Qed.

Lemma remove_dict_filter (items : list (string * json)) :
  NoDup (keys items) ->
  remove_empty_from_dict (JDict items)
  = JDict (map pruned_entry (filter (fun kv => keeps_value (snd kv)) items)).
Proof.
  intro Hnd. rewrite remove_dict_loop, prune_loop_distinct; auto.
Qed.

(** The second disjunct of [v or remove_empty_from_dict(v)] never
    decides: a falsy value is returned as it is. *)
Lemma truthy_remove (v : json) :
  truthy v = false -> remove_empty_from_dict v = v.
Proof.
  destruct v as [| | | | |l|d]; simpl; try reflexivity.
  - destruct l; [reflexivity|discriminate].
  - destruct d; [reflexivity|discriminate].
Qed.

Lemma keeps_value_spec (v : json) :
  keeps_value v =
  match v with
  | JNull => false
  | JBool b => b
  | JInt _ | JFloat _ => true
  | JStr s => negb (String.eqb s "")
  | JList l => nonempty l
  | JDict d => nonempty d
  end.
Proof.
  unfold keeps_value.
  destruct v as [|b|z|f|s|l|d]; simpl; try reflexivity.
  - now destruct b.
  - destruct s; reflexivity.
  - destruct l; reflexivity.
  - destruct d; reflexivity.
Qed.

Lemma keeps_element_spec (v : json) :
  keeps_element v = negb (is_None v) && str_strip v.
Proof.
  unfold keeps_element. destruct v; simpl; try reflexivity.
  now rewrite orb_diag, andb_true_r.
Qed.

Lemma wf_list (l : list json) :
  wf_json (JList l) = true <-> Forall (fun v => wf_json v = true) l.
Proof.
  simpl. induction l as [|v rest IH]; simpl.
  - split; [constructor|reflexivity].
  - rewrite andb_true_iff, IH. split.
    + intros [? ?]. now constructor.
    + intro H. inversion H; subst. now split.
Qed.

Lemma wf_dict (d : list (string * json)) :
  wf_json (JDict d) = true
  <-> NoDup (keys d) /\ Forall (fun kv => wf_json (snd kv) = true) d.
Proof.
  simpl. rewrite andb_true_iff, distinct_NoDup. unfold keys.
  apply and_iff_compat_l.
  induction d as [|[k v] rest IH]; simpl.
  - split; [constructor|reflexivity].
  - rewrite andb_true_iff, IH. split.
    + intros [? ?]. now constructor.
    + intro H. inversion H; subst. now split.
Qed.

Lemma numeric_leaves_list (l : list json) :
  numeric_leaves (JList l) = flat_map numeric_leaves l.
Proof.
  simpl. induction l as [|v rest IH]; simpl; [reflexivity|]. now rewrite IH.
Qed.

Lemma numeric_leaves_dict (d : list (string * json)) :
  numeric_leaves (JDict d) = flat_map (fun kv => numeric_leaves (snd kv)) d.
Proof.
  simpl. induction d as [|[k v] rest IH]; simpl; [reflexivity|]. now rewrite IH.
Qed.

Lemma dropped_value_no_number (v : json) :
  keeps_value v = false -> numeric_leaves v = [].
Proof.
  rewrite keeps_value_spec.
  destruct v as [|b|z|f|s|l|d]; simpl; try reflexivity; try discriminate.
  - destruct l; [reflexivity|discriminate].
  - destruct d; [reflexivity|discriminate].
Qed.

Lemma dropped_element_no_number (v : json) :
  keeps_element v = false -> numeric_leaves v = [].
Proof.
  rewrite keeps_element_spec.
  destruct v; simpl; try reflexivity; discriminate.
Qed.

Lemma filter_Subseq {A} (p : A -> bool) (l : list A) : Subseq (filter p l) l.
Proof.
  induction l as [|x rest IH]; simpl; [constructor|].
  destruct (p x); now constructor.
Qed.

Lemma keys_pruned (d : list (string * json)) :
  incl (keys (map pruned_entry (filter (fun kv => keeps_value (snd kv)) d)))
       (keys d).
Proof.
  intros k Hin. unfold keys in *. rewrite map_map in Hin. simpl in Hin.
  apply in_map_iff in Hin. destruct Hin as [kv [<- Hin]].
  apply filter_In in Hin. apply in_map. tauto.
Qed.

Lemma get_pruned (d : list (string * json)) (k : string) :
  NoDup (keys d) ->
  get (map pruned_entry (filter (fun kv => keeps_value (snd kv)) d)) k
  = match get d k with
    | Some v =>
        if keeps_value v then Some (remove_empty_from_dict v) else None
    | None => None
    end.
Proof.
  induction d as [|[k' v'] rest IH]; intro Hnd; simpl; [reflexivity|].
  inversion Hnd as [|? ? Hk Hrest]; subst.
  destruct (String.eqb_spec k k') as [->|Hne].
  - destruct (keeps_value v') eqn:Hkeep; simpl.
    + now rewrite String.eqb_refl.
    + apply get_None. intro Hin. apply Hk. now apply keys_pruned in Hin.
  - destruct (keeps_value v'); simpl.
    + destruct (String.eqb_spec k k'); [contradiction|auto].
    + auto.
Qed.

(** C6.  Pruning never removes a numeric leaf: the integers and floats
    of a value, 0 and 0.0 among them, are the same after pruning and in
    the same order, at any depth; a number that is a mapping value
    stays under its key and a number that is a sequence element stays
    an element. *)
Theorem pruning_keeps_numbers (x : json) :
  wf_json x = true ->
  numeric_leaves (remove_empty_from_dict x) = numeric_leaves x
  /\ (forall d k n,
        x = JDict d -> get d k = Some n -> is_number n = true ->
        exists d', remove_empty_from_dict x = JDict d' /\ get d' k = Some n)
  /\ (forall l n,
        x = JList l -> In n l -> is_number n = true ->
        exists l', remove_empty_from_dict x = JList l' /\ In n l').
Proof.
  intro Hwf. split; [|split].
  - revert Hwf. induction x as [| | | | |l IH|d IH] using json_ind; intro Hwf;
      try reflexivity.
    + rewrite remove_list_filter, !numeric_leaves_list.
      apply wf_list in Hwf.
      induction l as [|v rest IHl]; [reflexivity|].
      inversion IH as [|? ? IHv IHrest]; subst.
      inversion Hwf as [|? ? Hv Hrest]; subst.
      simpl. destruct (keeps_element v) eqn:Hkeep; simpl.
      * rewrite IHv by assumption. f_equal. auto.
      * rewrite (dropped_element_no_number v Hkeep). simpl. auto.
    + apply wf_dict in Hwf. destruct Hwf as [Hnd Hwf].
      rewrite remove_dict_filter by assumption.
      rewrite !numeric_leaves_dict. clear Hnd.
      induction d as [|[k v] rest IHd]; [reflexivity|].
      inversion IH as [|? ? IHv IHrest]; subst.
      inversion Hwf as [|? ? Hv Hrest]; subst.
      simpl in *. destruct (keeps_value v) eqn:Hkeep; simpl.
      * rewrite IHv by assumption. f_equal. auto.
      * rewrite (dropped_value_no_number v Hkeep). simpl. auto.
  - intros d k n -> Hget Hnum. apply wf_dict in Hwf. destruct Hwf as [Hnd _].
    rewrite remove_dict_filter by assumption. eexists. split; [reflexivity|].
    rewrite get_pruned, Hget by assumption.
    destruct n; try discriminate; reflexivity.
  - intros l n -> Hin Hnum. rewrite remove_list_filter.
    eexists. split; [reflexivity|].
    apply in_map_iff. exists n. split.
    + destruct n; try discriminate; reflexivity.
    + apply filter_In. split; [assumption|].
      destruct n; try discriminate; reflexivity.
Qed.

Lemma pruning_keeps_numbers_witness :
  numeric_leaves
    (remove_empty_from_dict
       (JDict [("n", JDict [("zero", JInt 0); ("gone", JNull)]);
               ("l", JList [JFloat (S754_zero false); JStr ""])]))
  = [JInt 0; JFloat (S754_zero false)].
Proof.
  exact (proj1 (pruning_keeps_numbers
                  (JDict [("n", JDict [("zero", JInt 0); ("gone", JNull)]);
                          ("l", JList [JFloat (S754_zero false); JStr ""])])
                  eq_refl)).
Defined.

(** C9.  Pruning never introduces new content: the keys of a pruned
    mapping are keys of the mapping and each holds the pruned form of
    its original value; a pruned sequence is the pruned forms of a
    subsequence of the elements, in their order; any other value is
    returned as it is. *)
Theorem pruning_adds_nothing (x : json) :
  wf_json x = true ->
  match x with
  | JDict d =>
      exists d',
        remove_empty_from_dict x = JDict d'
        /\ incl (keys d') (keys d)
        /\ forall k v', get d' k = Some v' ->
             exists v, get d k = Some v /\ v' = remove_empty_from_dict v
  | JList l =>
      exists kept,
        Subseq kept l
        /\ remove_empty_from_dict x = JList (map remove_empty_from_dict kept)
  | _ => remove_empty_from_dict x = x
  end.
Proof.
  intro Hwf. destruct x as [| | | | |l|d]; try reflexivity.
  - exists (filter keeps_element l). split.
    + apply filter_Subseq.
    + apply remove_list_filter.
  - apply wf_dict in Hwf. destruct Hwf as [Hnd _].
    eexists. split; [now apply remove_dict_filter|]. split.
    + apply keys_pruned.
    + intros k v' Hget. rewrite get_pruned in Hget by assumption.
      destruct (get d k) as [v|]; [|discriminate].
      destruct (keeps_value v); [|discriminate].
      injection Hget as <-. now exists v.
Qed.

Lemma pruning_adds_nothing_witness :
  exists d',
    remove_empty_from_dict
      (JDict [("a", JList [JNull; JInt 1]); ("b", JStr "")]) = JDict d'
    /\ incl (keys d') ["a"; "b"]
    /\ forall k v', get d' k = Some v' ->
         exists v,
           get [("a", JList [JNull; JInt 1]); ("b", JStr "")] k = Some v
           /\ v' = remove_empty_from_dict v.
Proof.
  exact (pruning_adds_nothing
           (JDict [("a", JList [JNull; JInt 1]); ("b", JStr "")]) eq_refl).
Defined.

Lemma remove_scalar_inv (v w : json) :
  match w with JList _ | JDict _ => False | _ => True end ->
  remove_empty_from_dict v = w -> v = w.
Proof. destruct v; simpl; intros Hw <-; try reflexivity; contradiction. Qed.

(** C4.  Pruning twice differs from pruning once on
    [{"k": {"a": null}}]: the first pass leaves [{"k": {}}], the second
    removes the entry. *)
Theorem pruning_not_idempotent :
  remove_empty_from_dict (JDict [("k", JDict [("a", JNull)])])
  = JDict [("k", JDict [])]
  /\ remove_empty_from_dict
       (remove_empty_from_dict (JDict [("k", JDict [("a", JNull)])]))
     = JDict []
  /\ remove_empty_from_dict
       (remove_empty_from_dict (JDict [("k", JDict [("a", JNull)])]))
     <> remove_empty_from_dict (JDict [("k", JDict [("a", JNull)])]).
Proof. repeat split. discriminate. Qed.

(** C5, as stated, fails: [false] is removed where it is a mapping
    value, and the empty sequence and the empty mapping stay where they
    are sequence elements. *)
Lemma false_value_removed :
  remove_empty_from_dict (JDict [("flag", JBool false)]) = JDict []
  /\ remove_empty_from_dict (JList [JList []; JDict []])
     = JList [JList []; JDict []]
  /\ ~ (forall d k,
          get d k = Some (JBool false) ->
          exists d',
            remove_empty_from_dict (JDict d) = JDict d'
            /\ get d' k = Some (JBool false)).
Proof.
  repeat split. intro H.
  destruct (H [("flag", JBool false)] "flag" eq_refl) as [d' [Heq Hget]].
  simpl in Heq. injection Heq as <-. discriminate.
Qed.

(** C5, amended.  From a mapping, pruning removes every entry whose
    value is null, the empty string, the empty mapping, the empty
    sequence or [false]; from a sequence it removes every null and
    every empty string, keeps every [false] (as many as there were, and
    no new one), and leaves the empty mapping and the empty sequence
    where they are elements; a [false] that is pruned itself is
    returned. *)
Theorem pruning_of_empty_values (x : json) :
  wf_json x = true ->
  (forall d k v,
     x = JDict d -> get d k = Some v ->
     In v [JNull; JStr ""; JDict []; JList []; JBool false] ->
     exists d', remove_empty_from_dict x = JDict d' /\ get d' k = None)
  /\ (forall l,
        x = JList l ->
        exists l',
          remove_empty_from_dict x = JList l'
          /\ ~ In JNull l' /\ ~ In (JStr "") l'
          /\ (In (JBool false) l -> In (JBool false) l')
          /\ filter is_False l' = filter is_False l
          /\ (In (JDict []) l -> In (JDict []) l')
          /\ (In (JList []) l -> In (JList []) l'))
  /\ (x = JBool false -> remove_empty_from_dict x = JBool false).
Proof.
  intro Hwf. split; [|split].
  - intros d k v -> Hget Hv. apply wf_dict in Hwf. destruct Hwf as [Hnd _].
    rewrite remove_dict_filter by assumption. eexists. split; [reflexivity|].
    rewrite get_pruned, Hget by assumption.
    simpl in Hv. decompose [or] Hv; subst; try reflexivity; contradiction.
  - intros l ->. rewrite remove_list_filter. eexists. split; [reflexivity|].
    repeat split.
    + intro Hin. apply in_map_iff in Hin. destruct Hin as [v [Hv Hin]].
      apply remove_scalar_inv in Hv; [|exact I]. subst.
      apply filter_In in Hin. destruct Hin as [_ Hkeep]. discriminate.
    + intro Hin. apply in_map_iff in Hin. destruct Hin as [v [Hv Hin]].
      apply remove_scalar_inv in Hv; [|exact I]. subst.
      apply filter_In in Hin. destruct Hin as [_ Hkeep]. discriminate.
    + intro Hin. apply in_map_iff. exists (JBool false).
      split; [reflexivity|]. apply filter_In. now split.
    + clear Hwf. induction l as [|v rest IH]; [reflexivity|].
      cbn [filter]. rewrite keeps_element_spec.
      destruct (negb (is_None v) && str_strip v) eqn:Hkeep; cbn [map filter].
      * replace (is_False (remove_empty_from_dict v)) with (is_False v)
          by now destruct v.
        destruct (is_False v) eqn:Hfalse; [|exact IH].
        destruct v as [|[|]| | | | |]; try discriminate.
        cbn [remove_empty_from_dict]. now rewrite IH.
      * replace (is_False v) with false; [exact IH|].
        destruct v as [|[|]| | | | |]; try reflexivity; discriminate.
    + intro Hin. apply in_map_iff. exists (JDict []).
      split; [reflexivity|]. apply filter_In. now split.
    + intro Hin. apply in_map_iff. exists (JList []).
      split; [reflexivity|]. apply filter_In. now split.
  - now intros ->.
Qed.

Lemma pruning_of_empty_values_witness :
  exists d',
    remove_empty_from_dict
      (JDict [("a", JList []); ("b", JBool false); ("c", JInt 7)]) = JDict d'
    /\ get d' "b" = None.
Proof.
  exact (proj1 (pruning_of_empty_values
                  (JDict [("a", JList []); ("b", JBool false); ("c", JInt 7)])
                  eq_refl)
           _ "b" (JBool false) eq_refl eq_refl
           (or_intror (or_intror (or_intror (or_intror (or_introl eq_refl)))))).
Defined.

(** C10, as stated, fails: the text of [None] is not blank, and a null
    element is removed all the same. *)
Lemma null_element_removed :
  str_strip JNull = true
  /\ remove_empty_from_dict (JList [JNull]) = JList []
  /\ ~ (forall l v,
          In v l -> str_strip v = true ->
          exists l',
            remove_empty_from_dict (JList l) = JList l'
            /\ In (remove_empty_from_dict v) l').
Proof.
  repeat split. intro H.
  destruct (H [JNull] JNull (or_introl eq_refl) eq_refl) as [l' [Heq Hin]].
  simpl in Heq. injection Heq as <-. contradiction.
Qed.

(** C10, amended.  A sequence is pruned by another rule than a mapping:
    its elements other than null whose text is not blank are all kept,
    in order, as their pruned forms, and no other element is; so
    [false], the empty mapping and the empty sequence stay where they
    are sequence elements. *)
Theorem sequence_elements_kept (l : list json) :
  exists l',
    remove_empty_from_dict (JList l) = JList l'
    /\ l' = map remove_empty_from_dict
              (filter (fun v => negb (is_None v) && str_strip v) l)
    /\ (forall v, In v l -> is_None v = false -> str_strip v = true ->
                  In (remove_empty_from_dict v) l')
    /\ (In (JBool false) l -> In (JBool false) l')
    /\ (In (JDict []) l -> In (JDict []) l')
    /\ (In (JList []) l -> In (JList []) l').
Proof.
  assert (forall v, In v l -> is_None v = false -> str_strip v = true ->
            In (remove_empty_from_dict v)
              (map remove_empty_from_dict
                 (filter (fun v => negb (is_None v) && str_strip v) l)))
    as Hkept.
  { intros v Hin Hnone Hstr. apply in_map, filter_In. split; [assumption|].
    now rewrite Hnone, Hstr. }
  eexists. split; [|split; [reflexivity|]].
  - rewrite remove_list_filter. do 2 f_equal.
    apply filter_ext. intro v. apply keeps_element_spec.
  - split; [exact Hkept|]. repeat split; intro Hin.
    + exact (Hkept (JBool false) Hin eq_refl eq_refl).
    + exact (Hkept (JDict []) Hin eq_refl eq_refl).
    + exact (Hkept (JList []) Hin eq_refl eq_refl).
Qed.

Lemma sequence_elements_kept_witness :
  exists l',
    remove_empty_from_dict (JList [JNull; JBool false; JStr " "; JDict []])
    = JList l'
    /\ In (JBool false) l'.
Proof.
  destruct (sequence_elements_kept [JNull; JBool false; JStr " "; JDict []])
    as [l' [Heq [_ [_ [Hfalse _]]]]].
  exists l'. split; [exact Heq|].
  apply Hfalse. right. left. reflexivity.
Defined.

(** ** Sorting by text *)

Lemma leb_trans (a b c : string) :
  String.leb a b = true -> String.leb b c = true -> String.leb a c = true.
Proof.
  unfold String.leb.
  destruct (String.compare a b) eqn:Hab; try discriminate; intros _;
    destruct (String.compare b c) eqn:Hbc; try discriminate; intros _.
  - apply String.compare_eq_iff in Hab. subst. now rewrite Hbc.
  - apply String.compare_eq_iff in Hab. subst. now rewrite Hbc.
  - apply String.compare_eq_iff in Hbc. subst. now rewrite Hab.
  - apply String_as_OT.cmp_lt in Hab, Hbc.
    pose proof (String_as_OT.lt_trans _ _ _ Hab Hbc) as Hac.
    apply String_as_OT.cmp_lt in Hac. unfold String_as_OT.cmp in Hac.
    now rewrite Hac.
Qed.

Lemma ltb_leb (a b : string) : String.ltb a b = true -> String.leb a b = true.
Proof.
  unfold String.ltb, String.leb. now destruct (String.compare a b).
Qed.

Lemma ltb_false_leb (a b : string) :
  String.ltb a b = false -> String.leb b a = true.
Proof.
  unfold String.ltb, String.leb. rewrite (String.compare_antisym b a).
  now destruct (String.compare a b).
Qed.

Section Sorting.

Context {A : Type} (key : A -> string).

Lemma insert_by_perm (x : A) (l : list A) :
  Permutation (insert_by key x l) (x :: l).
Proof.
  induction l as [|y rest IH]; simpl; [reflexivity|].
  destruct (String.ltb (key y) (key x)); [|reflexivity].
  rewrite IH. apply perm_swap.
Qed.

Lemma sorted_perm (l : list A) : Permutation (sorted key l) l.
Proof.
  induction l as [|x rest IH]; simpl; [reflexivity|].
  unfold sorted in *. simpl. rewrite insert_by_perm. now constructor.
Qed.

Lemma insert_by_ascending (x : A) (l : list A) :
  StronglySorted (ascending key) l -> StronglySorted (ascending key) (insert_by key x l).
Proof.
  induction l as [|y rest IH]; intro Hs; simpl.
  - repeat constructor.
  - inversion Hs as [|? ? Hrest Hy]; subst.
    destruct (String.ltb (key y) (key x)) eqn:Hlt.
    + constructor; [auto|].
      apply (Permutation_Forall (Permutation_sym (insert_by_perm x rest))).
      constructor; [|assumption]. now apply ltb_leb.
    + constructor; [assumption|]. apply ltb_false_leb in Hlt.
      constructor; [assumption|].
      eapply Forall_impl; [|exact Hy]. intros z Hz.
      unfold ascending in *. eapply leb_trans; eassumption.
Qed.

Lemma sorted_ascending (l : list A) : StronglySorted (ascending key) (sorted key l).
Proof.
  induction l as [|x rest IH]; [constructor|].
  unfold sorted in *. simpl. now apply insert_by_ascending.
Qed.

End Sorting.

(** ** The checker *)

Section CheckerFacts.

Context {E : Engine}.

Lemma check_event_key_str (event : json) :
  check_event_key event = [] <-> exists name, event = JStr name.
Proof.
  unfold check_event_key. destruct event; simpl; split;
    try discriminate; try (intros [? ?]; discriminate); eauto.
Qed.

Lemma check_schema_key_str (name : string) (schemas : dict schema_obj) :
  check_schema_key (JStr name) schemas
  = Return match get schemas name with
           | None => [msg_no_schema]
           | Some v =>
               if is_CorruptedSchema v then [msg_schema_corrupted] else []
           end.
Proof.
  unfold check_schema_key, py_item. simpl.
  destruct (get schemas name) as [v|]; simpl; [|reflexivity].
  now destruct (is_CorruptedSchema v).
Qed.

(** What one iteration does with a document that is an object whose
    [event] is a string. *)
Lemma run_checker_body_named (schemas : dict schema_obj) (l : list string)
    (p : path) (d : dict json) (name : string) :
  reader p = inr (JDict d) ->
  get d "event" = Some (JStr name) ->
  run_checker_body schemas l p
  = match get schemas name with
    | None => Return (l ++ check_data_key (json_get d "data") ++ [msg_no_schema])
    | Some v =>
        if is_CorruptedSchema v
        then Return (l ++ check_data_key (json_get d "data")
                       ++ [msg_schema_corrupted])
        else if is_None (json_get d "data") then Return (l ++ [msg_no_data])
        else found <- check_data (json_get d "data") v ;; Return (l ++ found)
    end.
Proof.
  intros Hread Hevent.
  assert (json_get d "event" = JStr name) as Hname.
  { unfold json_get. now rewrite Hevent. }
  assert (py_item d (JStr "event") = Return (JStr name)) as Hitem.
  { unfold py_item. simpl. now rewrite Hevent. }
  unfold run_checker_body. rewrite Hread, Hname, Hitem.
  change (check_event_key (JStr name)) with (@nil string).
  cbn [nonempty bind]. rewrite check_schema_key_str. cbn [bind].
  rewrite !app_nil_r.
  destruct (get schemas name) as [v|] eqn:Hget.
  - destruct (is_CorruptedSchema v) eqn:Hcls.
    + cbn [nonempty orb]. now rewrite <- app_assoc.
    + cbn [nonempty orb]. rewrite !app_nil_r. unfold check_data_key.
      unfold json_get. destruct (get d "data") as [data|] eqn:Hdata.
      * destruct (is_None data) eqn:Hnone; cbn [nonempty]; [reflexivity|].
        unfold py_item. cbn [py_get bind]. rewrite Hdata. cbn [bind].
        rewrite Hget. cbn [bind]. now rewrite app_nil_r.
      * reflexivity.
  - cbn [nonempty orb]. now rewrite <- app_assoc.
Qed.

(** A registry entry that is a [CorruptedSchema] instance is never
    reported by [check_schema_key], and a document that names it with
    data to check makes [check_data] raise. *)
Lemma run_checker_body_corrupted (schemas : dict schema_obj) (l : list string)
    (p : path) (d : dict json) (name : string) (error : error_obj) :
  reader p = inr (JDict d) ->
  get d "event" = Some (JStr name) ->
  get schemas name = Some (CorruptedSchemaInstance error) ->
  check_schema_key (JStr name) schemas = Return []
  /\ run_checker_body schemas l p
     = if is_None (json_get d "data") then Return (l ++ [msg_no_data])
       else Raise AttributeError.
Proof.
  intros Hread Hevent Hget. split.
  - now rewrite check_schema_key_str, Hget.
  - rewrite (run_checker_body_named _ _ _ _ _ Hread Hevent), Hget. simpl.
    now destruct (is_None (json_get d "data")).
Qed.

(** An iteration faults inside [check_data] only: with the attribute
    error for a registry entry that is no validator, or with what the
    engine raises for one that is. *)
Lemma run_checker_body_fault (schemas : dict schema_obj) (l : list string)
    (p : path) (f : fault) :
  run_checker_body schemas l p = Raise f ->
  exists d name data v,
    reader p = inr (JDict d)
    /\ get d "event" = Some (JStr name)
    /\ get d "data" = Some data /\ is_None data = false
    /\ get schemas name = Some v
    /\ match v with
       | Draft7ValidatorInstance val =>
           exists err,
             iter_errors val data = inl err /\ f = EngineError (exn_str err)
       | _ => f = AttributeError
       end.
Proof.
  intro Hraise.
  destruct (reader p) as [err|event_json] eqn:Hread;
    [unfold run_checker_body in Hraise; rewrite Hread in Hraise; discriminate|].
  destruct event_json as [| | | | | |d];
    try (unfold run_checker_body in Hraise; rewrite Hread in Hraise;
         discriminate).
  destruct (check_event_key (json_get d "event")) as [|e es] eqn:Hev.
  - apply check_event_key_str in Hev. destruct Hev as [name Hname].
    assert (get d "event" = Some (JStr name)) as Hevent.
    { unfold json_get in Hname. destruct (get d "event"); congruence. }
    rewrite (run_checker_body_named _ _ _ _ _ Hread Hevent) in Hraise.
    destruct (get schemas name) as [v|] eqn:Hget; [|discriminate].
    destruct (is_CorruptedSchema v) eqn:Hcls; [discriminate|].
    destruct (is_None (json_get d "data")) eqn:Hnone; [discriminate|].
    unfold json_get in Hnone, Hraise.
    destruct (get d "data") as [data|] eqn:Hdata; [|discriminate].
    exists d, name, data, v. split; [reflexivity|].
    repeat (split; [assumption|]).
    destruct v as [val|error|]; cbn [check_data bind] in Hraise; cbv iota.
    + destruct (iter_errors val data) as [err|violations] eqn:Hiter;
        cbn [bind] in Hraise; [|discriminate].
      injection Hraise as <-. exists err. split; reflexivity.
    + now injection Hraise as <-.
    + discriminate.
  - unfold run_checker_body in Hraise. rewrite Hread, Hev in Hraise.
    discriminate.
Qed.

End CheckerFacts.


Lemma In_keys_set {V} (d : dict V) (k k' : string) (v : V) :
  In k' (keys (set d k v)) <-> In k' (keys d) \/ k' = k.
Proof.
  rewrite keys_set. destruct (mem d k) eqn:Hm.
  - apply mem_In in Hm. split; [tauto|]. intros [?| ->]; assumption.
  - rewrite in_app_iff. simpl. intuition congruence.
Qed.

Section Listings.

Context {E : Engine} {V : Type} (f : path -> V).

Lemma pass_keys (listing : list path) (acc : dict V) (k : string) :
  In k (keys (pass f listing acc))
  <-> In k (keys acc) \/ exists p, In p listing /\ stem p = k.
Proof.
  revert acc. induction listing as [|q rest IH]; intro acc; simpl.
  - split; [tauto|]. intros [?|[? [[] _]]]. assumption.
  - unfold pass in *. simpl. rewrite IH, In_keys_set. split.
    + intros [[?| ->]|[p [? ?]]]; eauto.
    + intros [?|[p [[->|?] ?]]]; eauto.
Qed.

Lemma pass_NoDup (listing : list path) (acc : dict V) :
  NoDup (keys acc) -> NoDup (keys (pass f listing acc)).
Proof.
  revert acc. induction listing as [|q rest IH]; intros acc Hnd; simpl;
    [assumption|].
  apply IH. now apply NoDup_keys_set.
Qed.

Lemma pass_get_other (listing : list path) (acc : dict V) (k : string) :
  (forall q, In q listing -> stem q <> k) ->
  get (pass f listing acc) k = get acc k.
Proof.
  revert acc. induction listing as [|q rest IH]; intros acc Hother; simpl;
    [reflexivity|].
  unfold pass in *. simpl. rewrite IH by (intros; apply Hother; now right).
  apply get_set_other. intro Heq. apply (Hother q); [now left|congruence].
Qed.

Lemma pass_get_last (before after : list path) (p : path) (acc : dict V) :
  (forall q, In q after -> stem q <> stem p) ->
  get (pass f (before ++ p :: after) acc) (stem p) = Some (f p).
Proof.
  intro Hafter. unfold pass. rewrite fold_left_app. simpl.
  fold (pass f after
          (set (fold_left (fun d p => set d (stem p) (f p)) before acc)
             (stem p) (f p))).
  rewrite pass_get_other by assumption. apply get_set_same.
Qed.

End Listings.

Section RegistryFacts.

Context {E : Engine}.

(** C7.  The loader gives the registry exactly one entry per stem met
    in the schema directory and none else; a failure of reading,
    parsing, structure checking or compiling is stored as a
    [CorruptedSchema] holding the exception, a file that passes is
    stored compiled; a failure stops nothing, every file of the listing
    has its entry; and an entry made stays while the pass goes on. *)
Theorem schema_loader_registry (listing : list path) :
  NoDup (keys (schema_loader listing))
  /\ (forall k, In k (keys (schema_loader listing))
                <-> exists p, In p listing /\ stem p = k)
  /\ (forall p, In p listing ->
                exists v, get (schema_loader listing) (stem p) = Some v)
  /\ (forall before p after,
        listing = before ++ p :: after ->
        (forall q, In q after -> stem q <> stem p) ->
        get (schema_loader listing) (stem p)
        = Some match load_json p with
               | inl err => CorruptedSchemaInstance (ExceptionObj err)
               | inr json_schema =>
                   match check_schema json_schema with
                   | Some err => CorruptedSchemaInstance (ExceptionObj err)
                   | None =>
                       match Draft7Validator json_schema with
                       | inl err => CorruptedSchemaInstance (ExceptionObj err)
                       | inr val => Draft7ValidatorInstance val
                       end
                   end
               end)
  /\ (forall more k,
        In k (keys (schema_loader listing)) ->
        In k (keys (schema_loader (listing ++ more)))).
Proof.
  assert (forall l, schema_loader l = pass loaded_entry l []) as Hpass
    by reflexivity.
  rewrite Hpass. repeat split.
  - apply pass_NoDup. constructor.
  - intro Hin. apply pass_keys in Hin. destruct Hin as [[]|Hin]. exact Hin.
  - intro Hin. apply pass_keys. now right.
  - intros p Hin.
    destruct (get (pass loaded_entry listing []) (stem p)) as [v|] eqn:Hget;
      [eauto|].
    apply get_None in Hget. exfalso. apply Hget. apply pass_keys. eauto.
  - intros before p after -> Hafter. rewrite pass_get_last by assumption.
    f_equal. unfold loaded_entry, load_schema.
    destruct (load_json p) as [err|json_schema]; [reflexivity|].
    destruct (check_schema json_schema); [reflexivity|].
    now destruct (Draft7Validator json_schema).
  - intros more k Hin. rewrite Hpass. apply pass_keys. apply pass_keys in Hin.
    destruct Hin as [[]|[p [Hin Hstem]]]. right. exists p.
    rewrite in_app_iff. tauto.
Qed.

End RegistryFacts.

Lemma schema_loader_registry_witness :
  get (@schema_loader toy [user_json; bad_json]) "bad"
  = Some (CorruptedSchemaInstance (@ExceptionObj toy "Expecting value")).
Proof.
  exact (proj1 (proj2 (proj2 (proj2
           (@schema_loader_registry toy [user_json; bad_json]))))
           [user_json] bad_json [] eq_refl
           (fun q (H : In q []) => match H with end)).
Defined.

Section BatchFacts.

Context {E : Engine}.

Lemma run_checker_loop_app (schemas : dict schema_obj)
    (before after : list path) (errors : dict (list string)) :
  run_checker_loop schemas (before ++ after) errors
  = (errors' <- run_checker_loop schemas before errors ;;
     run_checker_loop schemas after errors').
Proof.
  revert errors. induction before as [|p rest IH]; intro errors; simpl;
    [reflexivity|].
  destruct (py_item errors (JStr (stem p))) as [l|f]; simpl; [|reflexivity].
  destruct (run_checker_body schemas l p) as [l'|f]; simpl; [|reflexivity].
  apply IH.
Qed.

Lemma run_checker_loop_other (schemas : dict schema_obj)
    (files_paths : list path) (errors errors' : dict (list string))
    (k : string) :
  run_checker_loop schemas files_paths errors = Return errors' ->
  (forall q, In q files_paths -> stem q <> k) ->
  get errors' k = get errors k.
Proof.
  revert errors. induction files_paths as [|p rest IH]; intros errors Hrun Hk;
    simpl in Hrun.
  - now injection Hrun as <-.
  - destruct (py_item errors (JStr (stem p))) as [l|f]; simpl in Hrun;
      [|discriminate].
    destruct (run_checker_body schemas l p) as [l'|f]; simpl in Hrun;
      [|discriminate].
    rewrite (IH _ Hrun) by (intros; apply Hk; now right).
    apply get_set_other. intro Heq. apply (Hk p); [now left|congruence].
Qed.

(** Where no other file of the directory has the stem of a document,
    the list stored under that stem at the end of the run is the list
    the document's own iteration builds from the empty list. *)
Lemma run_checker_unique_stem (schemas : dict schema_obj)
    (before after : list path) (p : path) (errors : dict (list string)) :
  (forall q, In q (before ++ after) -> stem q <> stem p) ->
  run_checker_loop schemas (before ++ p :: after)
    (empty_errors (before ++ p :: after)) = Return errors ->
  exists l,
    run_checker_body schemas [] p = Return l /\ get errors (stem p) = Some l.
Proof.
  intros Hother Hrun. rewrite run_checker_loop_app in Hrun.
  destruct (run_checker_loop schemas before
              (empty_errors (before ++ p :: after))) as [e1|f] eqn:Hbefore;
    [|discriminate].
  simpl in Hrun.
  assert (get e1 (stem p) = Some []) as Hstart.
  { rewrite (run_checker_loop_other _ _ _ _ _ Hbefore)
      by (intros; apply Hother; rewrite in_app_iff; tauto).
    apply (pass_get_last (fun _ => []) before after p []).
    intros; apply Hother; rewrite in_app_iff; tauto. }
  unfold py_item in Hrun. simpl in Hrun. rewrite Hstart in Hrun. simpl in Hrun.
  destruct (run_checker_body schemas [] p) as [l|f]; simpl in Hrun;
    [|discriminate].
  exists l. split; [reflexivity|].
  rewrite (run_checker_loop_other _ _ _ _ _ Hrun)
    by (intros; apply Hother; rewrite in_app_iff; tauto).
  apply get_set_same.
Qed.


Lemma json_errors_keys (errors : dict (list string)) :
  keys (json_errors errors) = keys errors.
Proof. unfold json_errors, keys. rewrite map_map. reflexivity. Qed.

(** The report of a run without any error: the entry [json_errors] is
    kept by the pruner, emptied, as soon as there is a document, and
    the report then carries the heading of the JSON section. *)
Lemma report_without_errors (schemas : dict schema_obj)
    (errors : dict (list string)) :
  schema_errors schemas = [] ->
  NoDup (keys errors) ->
  Forall (fun kv => snd kv = []) errors ->
  remove_empty_from_dict (result_of schemas errors)
  = JDict (if nonempty errors then [("json_errors", JDict [])] else [])
  /\ make_report (remove_empty_from_dict (result_of schemas errors))
     = Return ([report_header now; LF]
               ++ if nonempty errors then [json_section] else []).
Proof.
  intros Hschemas Hnd Hempty.
  assert (remove_empty_from_dict (JDict (json_errors errors)) = JDict [])
    as Hinner.
  { rewrite remove_dict_filter by now rewrite json_errors_keys.
    f_equal. clear Hnd. induction Hempty as [|[k l] rest Hl _ IH];
      [reflexivity|].
    simpl in Hl. subst. simpl. exact IH. }
  assert (remove_empty_from_dict (result_of schemas errors)
          = JDict (if nonempty errors then [("json_errors", JDict [])] else []))
    as Hpruned.
  { unfold result_of. rewrite Hschemas.
    rewrite remove_dict_filter by (repeat constructor; simpl; intuition discriminate).
    cbn [filter snd]. rewrite !keeps_value_spec.
    replace (nonempty (json_errors errors)) with (nonempty errors)
      by now destruct errors.
    cbn [nonempty]. destruct (nonempty errors); [|reflexivity].
    cbn [map]. unfold pruned_entry. cbn [fst snd]. now rewrite Hinner. }
  split; [exact Hpruned|]. rewrite Hpruned.
  destruct errors; reflexivity.
Qed.

End BatchFacts.

Section DocumentFacts.

Context {E : Engine}.

(** C3.  For a document that is an object with a string [event] and a
    [data] that is present and not null, whose [event] names a compiled
    validator of the registry for which the engine yields its
    violations on [data]: the document's iteration turns the empty list
    into exactly the messages of those violations, taken in ascending
    order of their text; a run over that document alone returns that
    list under the document's stem; and a run over a directory that
    completes holds that list under the stem when no other file of the
    directory has that stem. *)
Theorem valid_document_errors (schemas : dict schema_obj) (event_path : path)
    (event_json : dict json) (name : string) (data : json) (val : validator)
    (violations : list violation) :
  reader event_path = inr (JDict event_json) ->
  get event_json "event" = Some (JStr name) ->
  get event_json "data" = Some data ->
  is_None data = false ->
  get schemas name = Some (Draft7ValidatorInstance val) ->
  iter_errors val data = inr violations ->
  exists in_order,
    in_order = sorted text violations
    /\ Permutation in_order violations
    /\ StronglySorted (ascending text) in_order
    /\ run_checker_body schemas [] event_path = Return (map message in_order)
    /\ run_checker schemas [event_path]
       = Return (result_of schemas [(stem event_path, map message in_order)])
    /\ (forall before after result,
          (forall q, In q (before ++ after) -> stem q <> stem event_path) ->
          run_checker schemas (before ++ event_path :: after) = Return result ->
          exists errors,
            result = result_of schemas errors
            /\ get errors (stem event_path) = Some (map message in_order)).
Proof.
  intros Hread Hevent Hdata Hnone Hget Hiter.
  assert (run_checker_body schemas [] event_path
          = Return (map message (sorted text violations))) as Hbody.
  { rewrite (run_checker_body_named _ _ _ _ _ Hread Hevent), Hget.
    unfold json_get. rewrite Hdata. cbn [is_CorruptedSchema].
    rewrite Hnone. cbn [check_data]. now rewrite Hiter. }
  exists (sorted text violations).
  split; [reflexivity|]. split; [apply sorted_perm|].
  split; [apply sorted_ascending|]. split; [exact Hbody|]. split.
  - unfold run_checker, empty_errors. cbn [fold_left set run_checker_loop].
    unfold py_item. cbn [py_get get]. rewrite String.eqb_refl. cbn [bind].
    rewrite Hbody. reflexivity.
  - intros before after result Hother Hrun. unfold run_checker in Hrun.
    destruct (run_checker_loop schemas (before ++ event_path :: after)
                (empty_errors (before ++ event_path :: after)))
      as [errors|f] eqn:Hloop; simpl in Hrun; [|discriminate].
    injection Hrun as <-. exists errors. split; [reflexivity|].
    destruct (run_checker_unique_stem _ _ _ _ _ Hother Hloop)
      as [l [Hl Hstored]].
    congruence.
Qed.

End DocumentFacts.

Lemma valid_document_errors_witness :
  @run_checker_body toy (@schema_loader toy [user_json; bad_json]) [] doc2
  = Return ["'age' is a required property"; "'name' is a required property"].
Proof.
  destruct (@valid_document_errors toy
              (@schema_loader toy [user_json; bad_json]) doc2
              [("event", JStr "user"); ("data", JDict [])] "user" (JDict [])
              user_schema _ eq_refl eq_refl eq_refl eq_refl eq_refl eq_refl)
    as [in_order [Hsorted [_ [_ [Hrun _]]]]].
  rewrite Hrun, Hsorted. reflexivity.
Defined.

(** C3, as stated, fails: [doc2] names the valid schema [user] and has
    two violations, yet with a second file of stem [doc2] the list
    under [doc2] holds a third message, and with a document that names
    the corrupted schema beside it the run yields no list at all. *)
Lemma shared_stem_merges_errors :
  @check_data toy (JDict []) (@Draft7ValidatorInstance toy user_schema)
  = Return ["'age' is a required property"; "'name' is a required property"]
  /\ @run_checker toy (@schema_loader toy [user_json]) [doc2; doc2_txt]
     = Return
         (JDict
            [("schema_errors", JDict []);
             ("json_errors",
              JDict [("doc2",
                      JList [JStr "'age' is a required property";
                             JStr "'name' is a required property";
                             JStr msg_not_json])])])
  /\ ["'age' is a required property"; "'name' is a required property";
      msg_not_json]
     <> ["'age' is a required property"; "'name' is a required property"]
  /\ @run_checker toy (@schema_loader toy [user_json; bad_json])
       [doc2; doc_bad]
     = Raise AttributeError.
Proof. repeat split. discriminate. Qed.

(** C1.  With [bad.json] unreadable, the registry holds a
    [CorruptedSchema] under [bad]; [check_schema_key] reports nothing
    for that name, and the error list of a document that names it holds
    the missing-data error only. *)
Theorem corrupted_schema_not_reported :
  get (@schema_loader toy [user_json; bad_json]) "bad"
  = Some (CorruptedSchemaInstance (@ExceptionObj toy "Expecting value"))
  /\ @check_schema_key toy (JStr "bad")
       (@schema_loader toy [user_json; bad_json]) = Return []
  /\ @run_checker toy (@schema_loader toy [user_json; bad_json])
       [doc_bad_no_data]
     = Return
         (JDict
            [("schema_errors",
              JDict [("bad", JStr "Схема некорректна: Expecting value")]);
             ("json_errors",
              JDict [("doc_bad_no_data", JList [JStr msg_no_data])])]).
Proof. repeat split. Qed.

(** C2.  A document that names the corrupted schema and has data makes
    the run over the documents, and the script, end on an attribute
    error. *)
Theorem corrupted_schema_raises :
  @run_checker_body toy (@schema_loader toy [user_json; bad_json]) [] doc_bad
  = Raise AttributeError
  /\ @run_checker toy (@schema_loader toy [user_json; bad_json])
       [doc1; doc_bad; doc2] = Raise AttributeError
  /\ @main toy [user_json; bad_json] [doc1; doc_bad; doc2]
     = Raise AttributeError.
Proof. repeat split. Qed.

(** C8.  One valid schema and one document without any error: the
    result holds no error, and the report has the heading of the JSON
    section after the header. *)
Theorem clean_run_report :
  @run_checker toy (@schema_loader toy [user_json]) [doc1]
  = Return (JDict [("schema_errors", JDict []);
                   ("json_errors", JDict [("doc1", JList [])])])
  /\ remove_empty_from_dict
       (JDict [("schema_errors", JDict []);
               ("json_errors", JDict [("doc1", JList [])])])
     = JDict [("json_errors", JDict [])]
  /\ @main toy [user_json] [doc1]
     = Return [report_header "2020-01-01 00:00:00"; LF; json_section].
Proof. repeat split. Qed.

(** ** More on the pruner *)

Lemma pruned_form_list (l : list json) :
  pruned_form (JList l)
  = forallb (fun v => negb (is_None v) && str_strip v && pruned_form v) l.
Proof.
  simpl. induction l as [|v rest IH]; simpl; [reflexivity|]. now rewrite IH.
Qed.

Lemma pruned_form_dict (d : list (string * json)) :
  pruned_form (JDict d)
  = forallb (fun kv => negb (is_None (snd kv)) && negb (eq_empty_str (snd kv))
                       && negb (is_False (snd kv)) && pruned_form (snd kv)) d.
Proof.
  simpl. induction d as [|[k v] rest IH]; simpl; [reflexivity|]. now rewrite IH.
Qed.

Lemma settled_list (l : list json) :
  settled (JList l) = forallb settled l.
Proof.
  simpl. induction l as [|v rest IH]; simpl; [reflexivity|]. now rewrite IH.
Qed.

Lemma settled_dict (d : list (string * json)) :
  settled (JDict d)
  = forallb (fun kv => negb (is_empty_container (snd kv)) && settled (snd kv)) d.
Proof.
  simpl. induction d as [|[k v] rest IH]; simpl; [reflexivity|]. now rewrite IH.
Qed.

(** Dropping entries keeps the keys distinct. *)
Lemma distinct_keys_filter {V} (keep : string * V -> bool) (d : dict V) :
  NoDup (keys d) -> NoDup (keys (filter keep d)).
Proof.
  unfold keys. induction d as [|[k v] rest IH]; intro Hd; [constructor|].
  inversion Hd as [|? ? Hfresh Hrest]; subst. cbn [filter].
  destruct (keep (k, v)); [|now apply IH].
  cbn [map fst]. constructor; [|now apply IH].
  intro Hk. apply Hfresh. apply in_map_iff in Hk.
  destruct Hk as [[k' v'] [Hfst Hk]]. apply filter_In in Hk.
  apply in_map_iff. exists (k', v'). tauto.
Qed.

Lemma keys_pruned_entries (d : list (string * json)) :
  keys (map pruned_entry d) = keys d.
Proof. unfold keys. rewrite map_map. reflexivity. Qed.

Lemma remove_None (v : json) :
  is_None (remove_empty_from_dict v) = is_None v.
Proof. now destruct v. Qed.

Lemma remove_empty_str (v : json) :
  eq_empty_str (remove_empty_from_dict v) = eq_empty_str v.
Proof. now destruct v. Qed.

Lemma remove_False (v : json) :
  is_False (remove_empty_from_dict v) = is_False v.
Proof. now destruct v. Qed.

Lemma remove_str_strip (v : json) :
  str_strip (remove_empty_from_dict v) = str_strip v.
Proof. now destruct v. Qed.

Lemma wf_remove (x : json) :
  wf_json x = true -> wf_json (remove_empty_from_dict x) = true.
Proof.
  induction x as [| | | | |l IH|d IH] using json_ind; intro Hwf;
    try reflexivity.
  - rewrite remove_list_filter. apply wf_list. apply wf_list in Hwf.
    induction l as [|v rest IHl]; [constructor|].
    inversion IH as [|? ? IHv IHrest]; subst.
    inversion Hwf as [|? ? Hv Hrest]; subst.
    simpl. destruct (keeps_element v); simpl; auto.
  - apply wf_dict in Hwf. destruct Hwf as [Hnd Hwf].
    rewrite remove_dict_filter by assumption. apply wf_dict. split.
    + rewrite keys_pruned_entries. now apply distinct_keys_filter.
    + clear Hnd. induction d as [|[k v] rest IHd]; [constructor|].
      inversion IH as [|? ? IHv IHrest]; subst.
      inversion Hwf as [|? ? Hv Hrest]; subst.
      simpl in *. destruct (keeps_value v); simpl; auto.
Qed.

Lemma pruned_form_remove (x : json) :
  wf_json x = true -> pruned_form (remove_empty_from_dict x) = true.
Proof.
  induction x as [| | | | |l IH|d IH] using json_ind; intro Hwf;
    try reflexivity.
  - rewrite remove_list_filter, pruned_form_list. apply wf_list in Hwf.
    induction l as [|v rest IHl]; [reflexivity|].
    inversion IH as [|? ? IHv IHrest]; subst.
    inversion Hwf as [|? ? Hv Hrest]; subst.
    simpl. destruct (keeps_element v) eqn:Hkeep; simpl; [|auto].
    rewrite keeps_element_spec in Hkeep.
    rewrite remove_None, remove_str_strip, Hkeep, IHv by assumption. simpl. auto.
  - apply wf_dict in Hwf. destruct Hwf as [Hnd Hwf].
    rewrite remove_dict_filter by assumption. rewrite pruned_form_dict.
    clear Hnd. induction d as [|[k v] rest IHd]; [reflexivity|].
    inversion IH as [|? ? IHv IHrest]; subst.
    inversion Hwf as [|? ? Hv Hrest]; subst.
    simpl in *. destruct (keeps_value v) eqn:Hkeep; simpl; [|auto].
    rewrite remove_None, remove_empty_str, remove_False, IHv by assumption.
    rewrite IHd by assumption. rewrite keeps_value_spec in Hkeep.
    destruct v as [|b| | |s| |]; try discriminate; try reflexivity.
    + now destruct b.
    + now destruct s.
Qed.

(** X1.  After pruning, at any depth, no mapping holds a value that is
    null, the empty string or [False], and no sequence holds an element
    that is null or a blank string. *)
Theorem pruning_gives_pruned_form (x : json) :
  wf_json x = true -> pruned_form (remove_empty_from_dict x) = true.
Proof. apply pruned_form_remove. Qed.

Lemma pruning_gives_pruned_form_witness :
  pruned_form
    (remove_empty_from_dict
       (JDict [("a", JList [JNull; JStr " "; JDict [("b", JBool false)]]);
               ("c", JStr "")]))
  = true.
Proof.
  exact (pruning_gives_pruned_form
           (JDict [("a", JList [JNull; JStr " "; JDict [("b", JBool false)]]);
                   ("c", JStr "")])
           eq_refl).
Defined.

Lemma pruned_value_kept (v : json) :
  negb (is_None v) && negb (eq_empty_str v) && negb (is_False v)
  && negb (is_empty_container v) = true ->
  keeps_value v = true.
Proof.
  rewrite keeps_value_spec.
  destruct v as [|b| | |s|l|d]; simpl; try reflexivity; try discriminate.
  - now destruct b.
  - now destruct s.
  - now destruct l.
  - now destruct d.
Qed.

(** A value in pruned form that is settled is left as it is. *)
Lemma settled_fixed (y : json) :
  wf_json y = true -> pruned_form y = true -> settled y = true ->
  remove_empty_from_dict y = y.
Proof.
  induction y as [| | | | |l IH|d IH] using json_ind; intros Hwf Hform Hset;
    try reflexivity.
  - rewrite remove_list_filter. f_equal.
    rewrite pruned_form_list in Hform. rewrite settled_list in Hset.
    apply wf_list in Hwf.
    induction l as [|v rest IHl]; [reflexivity|].
    inversion IH as [|? ? IHv IHrest]; subst.
    inversion Hwf as [|? ? Hv Hrest]; subst.
    cbn [forallb] in Hform, Hset.
    repeat rewrite andb_true_iff in Hform. repeat rewrite andb_true_iff in Hset.
    destruct Hform as [[[Hnone Hstr] Hfv] Hfrest]. destruct Hset as [Hsv Hsrest].
    cbn [filter]. rewrite keeps_element_spec, Hnone, Hstr. cbn [andb map].
    rewrite IHv by assumption. f_equal. auto.
  - apply wf_dict in Hwf. destruct Hwf as [Hnd Hwf].
    rewrite remove_dict_filter by assumption. f_equal.
    rewrite pruned_form_dict in Hform. rewrite settled_dict in Hset.
    clear Hnd. induction d as [|[k v] rest IHd]; [reflexivity|].
    inversion IH as [|? ? IHv IHrest]; subst.
    inversion Hwf as [|? ? Hv Hrest]; subst.
    cbn [forallb snd] in *.
    repeat rewrite andb_true_iff in Hform. repeat rewrite andb_true_iff in Hset.
    destruct Hform as [[[[Hnone Hstr] Hfalse] Hfv] Hfrest].
    destruct Hset as [[Hne Hsv] Hsrest].
    cbn [filter snd].
    rewrite pruned_value_kept by (now rewrite Hnone, Hstr, Hfalse, Hne).
    cbn [map]. unfold pruned_entry at 1. cbn [fst snd].
    rewrite IHv by assumption. f_equal. auto.
Qed.

(** A mapping with an empty container among its values loses that entry. *)
Lemma unsettled_moves (y : json) :
  wf_json y = true -> remove_empty_from_dict y = y -> settled y = true.
Proof.
  induction y as [| | | | |l IH|d IH] using json_ind; intros Hwf Hfix;
    try reflexivity.
  - rewrite remove_list_filter in Hfix. injection Hfix as Hfix.
    rewrite settled_list. apply wf_list in Hwf.
    induction l as [|v rest IHl]; [reflexivity|].
    inversion IH as [|? ? IHv IHrest]; subst.
    inversion Hwf as [|? ? Hv Hrest]; subst.
    simpl in Hfix. destruct (keeps_element v).
    + simpl in Hfix. injection Hfix as Hv' Hrest'.
      simpl. rewrite IHv by assumption. simpl. auto.
    + exfalso. pose proof (filter_length_le keeps_element rest) as Hlen.
      apply (f_equal (@List.length json)) in Hfix.
      rewrite length_map in Hfix. simpl in Hfix. lia.
  - apply wf_dict in Hwf. destruct Hwf as [Hnd Hwf].
    rewrite remove_dict_filter in Hfix by assumption. injection Hfix as Hfix.
    rewrite settled_dict. clear Hnd.
    induction d as [|[k v] rest IHd]; [reflexivity|].
    inversion IH as [|? ? IHv IHrest]; subst.
    inversion Hwf as [|? ? Hv Hrest]; subst.
    simpl in *. destruct (keeps_value v) eqn:Hkeep.
    + simpl in Hfix. unfold pruned_entry at 1 in Hfix. simpl in Hfix.
      injection Hfix as Hv' Hrest'.
      rewrite IHv by assumption. rewrite IHd by assumption.
      rewrite keeps_value_spec in Hkeep.
      destruct v as [| | | | |l|d']; try reflexivity.
      * now destruct l.
      * now destruct d'.
    + exfalso.
      pose proof (filter_length_le (fun kv => keeps_value (snd kv)) rest) as Hlen.
      apply (f_equal (@List.length (string * json))) in Hfix.
      rewrite length_map in Hfix. simpl in Hfix. lia.
Qed.

(** X2.  A second pruning changes the pruned value exactly when some
    mapping of it has an empty mapping or an empty sequence as a
    value. *)
Theorem second_pruning (x : json) :
  wf_json x = true ->
  (remove_empty_from_dict (remove_empty_from_dict x) = remove_empty_from_dict x
   <-> settled (remove_empty_from_dict x) = true).
Proof.
  intro Hwf. split.
  - apply unsettled_moves. now apply wf_remove.
  - apply settled_fixed.
    + now apply wf_remove.
    + now apply pruned_form_remove.
Qed.

Lemma second_pruning_witness :
  remove_empty_from_dict
    (remove_empty_from_dict (JDict [("a", JList [JNull; JInt 1]); ("b", JNull)]))
  = remove_empty_from_dict (JDict [("a", JList [JNull; JInt 1]); ("b", JNull)]).
Proof.
  exact (proj2 (second_pruning
                  (JDict [("a", JList [JNull; JInt 1]); ("b", JNull)]) eq_refl)
           eq_refl).
Defined.

Lemma remove_scalar_str (v : json) (s : string) :
  remove_empty_from_dict v = JStr s -> v = JStr s.
Proof. destruct v; simpl; intro H; try discriminate; assumption. Qed.

(** X3.  A string is judged by emptiness in a mapping and by blankness
    in a sequence: a mapping keeps every string value that is not
    empty, white space included, under its key and unchanged; a
    sequence keeps exactly the strings that are not blank. *)
Theorem pruning_of_strings :
  (forall d k s,
     wf_json (JDict d) = true -> get d k = Some (JStr s) -> s <> "" ->
     exists d',
       remove_empty_from_dict (JDict d) = JDict d' /\ get d' k = Some (JStr s))
  /\ (forall l s,
        exists l',
          remove_empty_from_dict (JList l) = JList l'
          /\ (In (JStr s) l' <-> In (JStr s) l /\ blank s = false)).
Proof.
  split.
  - intros d k s Hwf Hget Hs. apply wf_dict in Hwf. destruct Hwf as [Hnd _].
    rewrite remove_dict_filter by assumption. eexists. split; [reflexivity|].
    rewrite get_pruned, Hget, keeps_value_spec by assumption.
    destruct (String.eqb_spec s ""); [contradiction|reflexivity].
  - intros l s. rewrite remove_list_filter. eexists. split; [reflexivity|].
    rewrite in_map_iff. split.
    + intros [v [Hv Hin]]. apply remove_scalar_str in Hv. subst.
      apply filter_In in Hin. destruct Hin as [Hin Hkeep].
      rewrite keeps_element_spec in Hkeep. simpl in Hkeep.
      split; [assumption|]. now destruct (blank s).
    + intros [Hin Hblank]. exists (JStr s). split; [reflexivity|].
      apply filter_In. split; [assumption|].
      rewrite keeps_element_spec. simpl. now rewrite Hblank.
Qed.

Lemma pruning_of_strings_witness :
  exists d',
    remove_empty_from_dict (JDict [("a", JStr " "); ("b", JList [JStr " "])])
    = JDict d'
    /\ get d' "a" = Some (JStr " ").
Proof.
  exact (proj1 pruning_of_strings
           [("a", JStr " "); ("b", JList [JStr " "])] "a" " "
           eq_refl eq_refl (fun H => match H with end)).
Defined.

(** ** More on the checker *)

Section MoreCheckerFacts.

Context {E : Engine}.

(** An iteration only appends: what it adds does not depend on the
    list it finds. *)
Lemma run_checker_body_prefix (schemas : dict schema_obj) (l : list string)
    (p : path) :
  run_checker_body schemas l p
  = match run_checker_body schemas [] p with
    | Return errs => Return (l ++ errs)
    | Raise f => Raise f
    end.
Proof.
  unfold run_checker_body.
  destruct (reader p) as [err|event_json]; [reflexivity|].
  destruct event_json as [| | | | | |d]; try reflexivity.
  destruct (nonempty (check_event_key (json_get d "event")));
    [cbn [app]; now rewrite app_assoc|].
  destruct (py_item d (JStr "event")) as [event|f]; [|reflexivity].
  cbn [bind].
  destruct (check_schema_key event schemas) as [schema_name_errors|f];
    [|reflexivity].
  cbn [bind].
  destruct (nonempty schema_name_errors
            || nonempty (check_data_key (json_get d "data")));
    [cbn [app]; now rewrite !app_assoc|].
  destruct (py_item d (JStr "data")) as [data|f]; [|reflexivity].
  cbn [bind].
  destruct (py_item schemas event) as [v|f]; [|reflexivity].
  cbn [bind].
  destruct (check_data data v) as [found|f]; [|reflexivity].
  cbn [bind app]. now rewrite !app_assoc.
Qed.

(** X4.  An iteration only appends to the list of its file's stem, and
    what it appends, like whether it faults, does not depend on what
    the list holds. *)
Theorem iteration_appends (schemas : dict schema_obj) (l l' : list string)
    (p : path) :
  run_checker_body schemas l p = Return l' ->
  exists errs,
    l' = l ++ errs
    /\ forall l0, run_checker_body schemas l0 p = Return (l0 ++ errs).
Proof.
  intro Hrun. rewrite run_checker_body_prefix in Hrun.
  destruct (run_checker_body schemas [] p) as [errs|f] eqn:Hnil;
    [|discriminate].
  injection Hrun as <-. exists errs. split; [reflexivity|].
  intro l0. now rewrite run_checker_body_prefix, Hnil.
Qed.

(** X5.  A file that cannot be read as JSON, is not a JSON object, or
    whose [event] is missing, null or not a string gets its errors
    whatever the registry holds and never faults: one format error, or
    the event error followed by the data error when [data] is missing
    or null. *)
Theorem unnamed_document_errors (schemas : dict schema_obj) (l : list string)
    (p : path) :
  (forall d, reader p = inr (JDict d) ->
             isinstance_str (json_get d "event") = false) ->
  run_checker_body schemas l p
  = Return
      (l ++ match reader p with
            | inl _ => [msg_not_json]
            | inr (JDict d) =>
                (if is_None (json_get d "event") then [msg_no_event]
                 else [msg_event_not_str])
                ++ (if is_None (json_get d "data") then [msg_no_data] else [])
            | inr _ => [msg_not_dict]
            end).
Proof.
  intro Hevent. unfold run_checker_body.
  destruct (reader p) as [err|event_json]; [reflexivity|].
  destruct event_json as [| | | | | |d]; try reflexivity.
  specialize (Hevent d eq_refl). unfold check_event_key, check_data_key.
  rewrite Hevent.
  destruct (is_None (json_get d "event")); cbn [negb nonempty];
    now rewrite <- app_assoc.
Qed.

(** X6.  A document whose [event] is a string that is no key of the
    registry gets the error of the unknown schema, after the data error
    when [data] is missing or null, and its data is not checked. *)
Theorem unknown_schema_errors (schemas : dict schema_obj) (l : list string)
    (p : path) (d : dict json) (name : string) :
  reader p = inr (JDict d) ->
  get d "event" = Some (JStr name) ->
  get schemas name = None ->
  run_checker_body schemas l p
  = Return (l ++ (if is_None (json_get d "data") then [msg_no_data] else [])
              ++ [msg_no_schema]).
Proof.
  intros Hread Hevent Hget.
  now rewrite (run_checker_body_named _ _ _ _ _ Hread Hevent), Hget.
Qed.

(** X7.  An iteration faults inside [check_data] only, that is, for a
    document that is an object with a string [event] and a [data] that
    is not null, whose [event] names a registry entry: with the
    attribute error when the entry is no validator, and with what the
    engine's [iter_errors] raises when it is one.  The checks of the
    keys raise no key error and no type error. *)
Theorem iteration_fault (schemas : dict schema_obj) (l : list string)
    (p : path) (f : fault) :
  run_checker_body schemas l p = Raise f ->
  exists d name data v,
    reader p = inr (JDict d)
    /\ get d "event" = Some (JStr name)
    /\ get d "data" = Some data /\ is_None data = false
    /\ get schemas name = Some v
    /\ match v with
       | Draft7ValidatorInstance val =>
           exists err,
             iter_errors val data = inl err /\ f = EngineError (exn_str err)
       | _ => f = AttributeError
       end.
Proof. apply run_checker_body_fault. Qed.


Lemma run_checker_loop_keys (schemas : dict schema_obj)
    (files_paths : list path) (errors errors' : dict (list string)) :
  run_checker_loop schemas files_paths errors = Return errors' ->
  keys errors' = keys errors.
Proof.
  revert errors. induction files_paths as [|p rest IH]; intros errors Hrun;
    simpl in Hrun.
  - now injection Hrun as <-.
  - unfold py_item in Hrun. simpl in Hrun.
    destruct (get errors (stem p)) as [l|] eqn:Hget; simpl in Hrun;
      [|discriminate].
    destruct (run_checker_body schemas l p) as [l'|f]; simpl in Hrun;
      [|discriminate].
    rewrite (IH _ Hrun), keys_set. unfold mem. now rewrite Hget.
Qed.

Lemma pass_keys_fresh {V} (f : path -> V) (listing : list path)
    (acc : dict V) :
  NoDup (map stem listing) ->
  (forall p, In p listing -> ~ In (stem p) (keys acc)) ->
  keys (pass f listing acc) = keys acc ++ map stem listing.
Proof.
  revert acc. induction listing as [|p rest IH]; intros acc Hnd Hfresh; simpl.
  - now rewrite app_nil_r.
  - inversion Hnd as [|? ? Hp Hrest]; subst.
    unfold pass in *. simpl. rewrite IH; [|assumption|].
    + rewrite keys_set.
      assert (mem acc (stem p) = false) as ->.
      { destruct (mem acc (stem p)) eqn:Hm; [|reflexivity].
        apply mem_In in Hm. exfalso. apply (Hfresh p); [now left|assumption]. }
      now rewrite <- app_assoc.
    + intros q Hq Hin. apply In_keys_set in Hin. destruct Hin as [Hin|Heq].
      * apply (Hfresh q); [now right|assumption].
      * apply Hp. rewrite <- Heq. now apply in_map.
Qed.

(** X9.  The result of a run lists every file of the directory, also a
    file without any error: the keys of [json_errors] are distinct and
    are exactly the stems of the listing, in the order of the listing
    when no two files share a stem. *)
Theorem run_lists_every_file (schemas : dict schema_obj)
    (files_paths : list path) (result : json) :
  run_checker schemas files_paths = Return result ->
  exists errors,
    result = result_of schemas errors
    /\ NoDup (keys errors)
    /\ (forall k, In k (keys errors)
                  <-> exists p, In p files_paths /\ stem p = k)
    /\ (NoDup (map stem files_paths) -> keys errors = map stem files_paths).
Proof.
  intro Hrun. unfold run_checker in Hrun.
  destruct (run_checker_loop schemas files_paths (empty_errors files_paths))
    as [errors|f] eqn:Hloop; simpl in Hrun; [|discriminate].
  injection Hrun as <-. exists errors. split; [reflexivity|].
  rewrite (run_checker_loop_keys _ _ _ _ Hloop).
  change (empty_errors files_paths)
    with (pass (fun _ : path => @nil string) files_paths []).
  split; [apply pass_NoDup; constructor|]. split.
  - intro k. rewrite pass_keys. simpl. tauto.
  - intro Hnd. now rewrite pass_keys_fresh by auto.
Qed.

Lemma run_checker_loop_collect (schemas : dict schema_obj)
    (files_paths : list path) (errors errors' : dict (list string))
    (k : string) (l0 : list string) :
  run_checker_loop schemas files_paths errors = Return errors' ->
  get errors k = Some l0 ->
  exists lists,
    Forall2 (fun p l => run_checker_body schemas [] p = Return l)
      (filter (fun p => String.eqb (stem p) k) files_paths) lists
    /\ get errors' k = Some (l0 ++ List.concat lists).
Proof.
  revert errors l0. induction files_paths as [|p rest IH];
    intros errors l0 Hrun Hget; simpl in Hrun.
  - injection Hrun as <-. exists []. split; [constructor|].
    now rewrite app_nil_r.
  - unfold py_item in Hrun. simpl in Hrun.
    destruct (get errors (stem p)) as [lp|] eqn:Hp; simpl in Hrun;
      [|discriminate].
    rewrite run_checker_body_prefix in Hrun.
    destruct (run_checker_body schemas [] p) as [errs|f] eqn:Hbody;
      simpl in Hrun; [|discriminate].
    simpl. destruct (String.eqb_spec (stem p) k) as [Heq|Hne].
    + subst k. rewrite Hget in Hp. injection Hp as <-.
      destruct (IH _ (l0 ++ errs) Hrun (get_set_same _ _ _)) as [lists [Hall Hk]].
      exists (errs :: lists). split; [now constructor|].
      simpl. now rewrite app_assoc.
    + apply (IH _ l0 Hrun). rewrite get_set_other by congruence. assumption.
Qed.

Lemma empty_errors_get (files_paths : list path) (p : path) :
  In p files_paths -> get (empty_errors files_paths) (stem p) = Some [].
Proof.
  induction files_paths as [|q rest IH] using rev_ind; [intros []|].
  intro Hin. unfold empty_errors in *. rewrite fold_left_app. simpl.
  destruct (String.eqb_spec (stem q) (stem p)) as [Heq|Hne].
  - rewrite Heq. apply get_set_same.
  - rewrite get_set_other by congruence. apply IH.
    apply in_app_or in Hin. destruct Hin as [Hin|[->|[]]]; [assumption|].
    contradiction.
Qed.

(** X10.  In the result of a run the list under a stem is the
    concatenation, in the order of the listing, of what the files with
    that stem each add to an empty list: files that share a stem share
    one list. *)
Theorem run_collects_by_stem (schemas : dict schema_obj)
    (files_paths : list path) (result : json) :
  run_checker schemas files_paths = Return result ->
  exists errors,
    result = result_of schemas errors
    /\ forall p, In p files_paths ->
         exists lists,
           Forall2 (fun q l => run_checker_body schemas [] q = Return l)
             (filter (fun q => String.eqb (stem q) (stem p)) files_paths) lists
           /\ get errors (stem p) = Some (List.concat lists).
Proof.
  intro Hrun. unfold run_checker in Hrun.
  destruct (run_checker_loop schemas files_paths (empty_errors files_paths))
    as [errors|f] eqn:Hloop; simpl in Hrun; [|discriminate].
  injection Hrun as <-. exists errors. split; [reflexivity|].
  intros p Hin.
  pose proof (empty_errors_get _ _ Hin) as Hstart.
  destruct (run_checker_loop_collect _ _ _ _ _ _ Hloop Hstart)
    as [lists [Hall Hk]].
  exists lists. split; assumption.
Qed.

End MoreCheckerFacts.

Lemma iteration_appends_witness :
  @run_checker_body toy (@schema_loader toy [user_json]) [msg_not_json] doc2
  = Return ([msg_not_json] ++ ["'age' is a required property";
                               "'name' is a required property"]).
Proof.
  destruct (@iteration_appends toy (@schema_loader toy [user_json]) [] _ doc2
              eq_refl) as [errs [Herrs Hall]].
  simpl in Herrs. subst errs. exact (Hall [msg_not_json]).
Defined.

Lemma unnamed_document_errors_witness :
  @run_checker_body toy (@schema_loader toy [bad_json]) []
    {| file_stem := "doc3";
       file_load := inr (JDict [("event", JInt 7)]) |}
  = Return [msg_event_not_str; msg_no_data].
Proof.
  exact (@unnamed_document_errors toy (@schema_loader toy [bad_json]) []
           {| file_stem := "doc3";
              file_load := inr (JDict [("event", JInt 7)]) |}
           (fun d H => match H in _ = r
                             return match r with
                                    | inr (JDict d') =>
                                        isinstance_str (json_get d' "event")
                                        = false
                                    | _ => True
                                    end
                       with eq_refl => eq_refl end)).
Defined.

Lemma unknown_schema_errors_witness :
  @run_checker_body toy (@schema_loader toy [user_json]) []
    {| file_stem := "doc3";
       file_load := inr (JDict [("event", JStr "ghost"); ("data", JDict [])]) |}
  = Return [msg_no_schema].
Proof.
  exact (@unknown_schema_errors toy (@schema_loader toy [user_json]) []
           {| file_stem := "doc3";
              file_load :=
                inr (JDict [("event", JStr "ghost"); ("data", JDict [])]) |}
           _ "ghost" eq_refl eq_refl eq_refl).
Defined.

Lemma iteration_fault_witness :
  exists d name data v,
    file_load doc_ref = inr (JDict d)
    /\ get d "event" = Some (JStr name)
    /\ get d "data" = Some data /\ is_None data = false
    /\ get (@schema_loader toy [user_json; ref_json]) name = Some v
    /\ match v with
       | Draft7ValidatorInstance val =>
           exists err,
             toy_engine val data = inl err
             /\ EngineError "Unresolvable JSON pointer" = EngineError err
       | _ => EngineError "Unresolvable JSON pointer" = AttributeError
       end.
Proof.
  exact (@iteration_fault toy (@schema_loader toy [user_json; ref_json])
           [] doc_ref (EngineError "Unresolvable JSON pointer") eq_refl).
Defined.


Lemma run_lists_every_file_witness :
  exists errors,
    JDict [("schema_errors", JDict []);
           ("json_errors",
            JDict [("doc1", JList []);
                   ("doc2", JList [JStr "'age' is a required property";
                                   JStr "'name' is a required property"])])]
    = @result_of toy (@schema_loader toy [user_json]) errors
    /\ keys errors = ["doc1"; "doc2"].
Proof.
  destruct (@run_lists_every_file toy (@schema_loader toy [user_json])
              [doc1; doc2] _ eq_refl) as [errors [Hres [_ [_ Hkeys]]]].
  exists errors. split; [exact Hres|]. apply Hkeys.
  repeat constructor; simpl; intuition discriminate.
Defined.

Lemma run_collects_by_stem_witness :
  exists errors lists,
    @run_checker toy (@schema_loader toy [user_json])
      [doc2; {| file_stem := "doc2"; file_load := inl "not json" |}]
    = Return (@result_of toy (@schema_loader toy [user_json]) errors)
    /\ get errors "doc2" = Some (List.concat lists)
    /\ List.length lists = 2.
Proof.
  destruct (@run_collects_by_stem toy (@schema_loader toy [user_json])
              [doc2; {| file_stem := "doc2"; file_load := inl "not json" |}]
              _ eq_refl) as [errors [Hres Hall]].
  destruct (Hall doc2 (or_introl eq_refl)) as [lists [Hlists Hget]].
  exists errors, lists. split; [now rewrite <- Hres|]. split; [exact Hget|].
  apply Forall2_length in Hlists. simpl in Hlists. now rewrite <- Hlists.
Defined.

(** ** The report *)

Section ReportFacts.

Context {E : Engine}.

Lemma schema_errors_loop (schemas : dict schema_obj) (acc : dict json) :
  NoDup (keys schemas) ->
  (forall k, In k (keys acc) -> ~ In k (keys schemas)) ->
  fold_left
    (fun acc kv =>
       match snd kv with
       | CorruptedSchemaInstance error =>
           set acc (fst kv) (JStr (CorruptedSchema_str error))
       | _ => acc
       end)
    schemas acc
  = acc ++ corrupted_entries schemas.
Proof.
  revert acc. induction schemas as [|[k v] rest IH]; intros acc Hnd Hdisj; simpl.
  - now rewrite app_nil_r.
  - inversion Hnd as [|? ? Hk Hrest]; subst.
    assert (forall k', In k' (keys acc) -> ~ In k' (keys rest)) as Hdisj'.
    { intros k' Hin Hin'. apply (Hdisj k' Hin). now right. }
    destruct v as [val|error|]; simpl; try (now apply IH).
    assert (~ In k (keys acc)) as Hfresh.
    { intro Hin. apply (Hdisj k Hin). now left. }
    rewrite set_fresh by assumption. rewrite IH; [|assumption|].
    + now rewrite <- app_assoc.
    + intros k' Hin. unfold keys in Hin. rewrite map_app, in_app_iff in Hin.
      destruct Hin as [Hin|[<-|[]]]; [auto|assumption].
Qed.

Lemma schema_errors_distinct (schemas : dict schema_obj) :
  NoDup (keys schemas) -> schema_errors schemas = corrupted_entries schemas.
Proof.
  intro Hnd. unfold schema_errors. now rewrite schema_errors_loop.
Qed.

Lemma corrupted_entries_keys (schemas : dict schema_obj) (k : string) :
  In k (keys (corrupted_entries schemas)) -> In k (keys schemas).
Proof.
  induction schemas as [|[k' v] rest IH]; simpl; [auto|].
  unfold keys in *. rewrite map_app, in_app_iff. intros [Hin|Hin]; [|auto].
  destruct v; simpl in Hin; try contradiction. destruct Hin as [<-|[]].
  now left.
Qed.

Lemma get_corrupted_entries (schemas : dict schema_obj) (k : string) :
  NoDup (keys schemas) ->
  get (corrupted_entries schemas) k
  = match get schemas k with
    | Some (CorruptedSchemaInstance error) =>
        Some (JStr (CorruptedSchema_str error))
    | _ => None
    end.
Proof.
  induction schemas as [|[k' v] rest IH]; intro Hnd; simpl; [reflexivity|].
  inversion Hnd as [|? ? Hk Hrest]; subst.
  destruct (String.eqb_spec k k') as [->|Hne].
  - destruct v as [val|error|]; simpl.
    + apply get_None. intro Hin. now apply corrupted_entries_keys in Hin.
    + now rewrite String.eqb_refl.
    + apply get_None. intro Hin. now apply corrupted_entries_keys in Hin.
  - destruct v as [val|error|]; simpl; auto.
    destruct (String.eqb_spec k k'); [contradiction|auto].
Qed.

(** X11.  [schema_errors] holds exactly the registry entries that are
    [CorruptedSchema] instances, each with the text of the instance,
    and these are found with [isinstance]: for every registry with
    distinct keys, a name is a key of [schema_errors] exactly when the
    registry maps it to such an instance. *)
Theorem schema_errors_of_registry (schemas : dict schema_obj) (k : string) :
  NoDup (keys schemas) ->
  get (schema_errors schemas) k
  = match get schemas k with
    | Some (CorruptedSchemaInstance error) =>
        Some (JStr (msg_schema_invalid ++ error_obj_str error)%string)
    | _ => None
    end.
Proof.
  intro Hnd. rewrite schema_errors_distinct by assumption.
  now apply get_corrupted_entries.
Qed.


End ReportFacts.

Lemma schema_errors_of_registry_witness :
  get (@schema_errors toy (@schema_loader toy [user_json; bad_json])) "bad"
  = Some (JStr "Схема некорректна: Expecting value")
  /\ get (@schema_errors toy (@schema_loader toy [user_json; bad_json])) "user"
     = None.
Proof.
  split.
  - exact (@schema_errors_of_registry toy
             (@schema_loader toy [user_json; bad_json]) "bad"
             (proj1 (distinct_NoDup ["user"; "bad"]) eq_refl)).
  - exact (@schema_errors_of_registry toy
             (@schema_loader toy [user_json; bad_json]) "user"
             (proj1 (distinct_NoDup ["user"; "bad"]) eq_refl)).
Defined.


Lemma Forall_set {V} (P : V -> Prop) (d : dict V) (k : string) (v : V) :
  Forall (fun kv => P (snd kv)) d -> P v ->
  Forall (fun kv => P (snd kv)) (set d k v).
Proof.
  intros Hd Hv. induction d as [|[k' v'] rest IH]; simpl.
  - now repeat constructor.
  - inversion Hd as [|? ? Hv' Hrest]; subst.
    destruct (String.eqb k k'); constructor; auto.
Qed.

Section MainFacts.

Context {E : Engine}.

Lemma schema_errors_shape (schemas : dict schema_obj) :
  NoDup (keys (schema_errors schemas))
  /\ Forall (fun kv => exists error, snd kv = JStr (CorruptedSchema_str error))
       (schema_errors schemas).
Proof.
  unfold schema_errors.
  assert (NoDup (keys (@nil (string * json)))
          /\ Forall (fun kv : string * json =>
                       exists error, snd kv = JStr (CorruptedSchema_str error))
               []) as Hacc by (split; constructor).
  revert Hacc. generalize (@nil (string * json)) as acc.
  induction schemas as [|[k v] rest IH]; intros acc Hacc; simpl; [exact Hacc|].
  apply IH. destruct v as [val|error|]; simpl; try exact Hacc.
  destruct Hacc as [Hnd Hall]. split.
  - now apply NoDup_keys_set.
  - apply (Forall_set (fun v => exists error, v = JStr (CorruptedSchema_str error)));
      eauto.
Qed.

Lemma remove_schema_section (schemas : dict schema_obj) :
  remove_empty_from_dict (JDict (schema_errors schemas))
  = JDict (schema_errors schemas).
Proof.
  destruct (schema_errors_shape schemas) as [Hnd Hall].
  rewrite remove_dict_filter by assumption. f_equal. clear Hnd.
  induction Hall as [|[k v] rest [error Hv] _ IH]; [reflexivity|].
  simpl in Hv. subst v. simpl. now rewrite IH.
Qed.

Lemma remove_messages (l : list string) :
  remove_empty_from_dict (JList (map JStr l))
  = JList (map JStr (filter (fun m => negb (blank m)) l)).
Proof.
  rewrite remove_list_filter. f_equal.
  induction l as [|m rest IH]; [reflexivity|].
  simpl. rewrite keeps_element_spec. simpl.
  destruct (blank m); simpl; now rewrite IH.
Qed.

Lemma remove_json_section (errors : dict (list string)) :
  NoDup (keys errors) ->
  remove_empty_from_dict (JDict (json_errors errors))
  = JDict (json_errors (kept_errors errors)).
Proof.
  intro Hnd. rewrite remove_dict_filter by now rewrite json_errors_keys.
  f_equal. clear Hnd. unfold json_errors, kept_errors.
  induction errors as [|[k l] rest IH]; [reflexivity|].
  cbn [map filter fst snd]. rewrite keeps_value_spec.
  replace (nonempty (map JStr l)) with (nonempty l) by now destruct l.
  destruct (nonempty l); cbn [map filter fst snd]; [|exact IH].
  unfold pruned_entry at 1. cbn [fst snd]. rewrite remove_messages.
  now rewrite IH.
Qed.

Lemma remove_result (schemas : dict schema_obj) (errors : dict (list string)) :
  NoDup (keys errors) ->
  remove_empty_from_dict (result_of schemas errors)
  = JDict ((if nonempty (schema_errors schemas)
            then [("schema_errors", JDict (schema_errors schemas))] else [])
           ++ (if nonempty errors
               then [("json_errors", JDict (json_errors (kept_errors errors)))]
               else [])).
Proof.
  intro Hnd. unfold result_of.
  rewrite remove_dict_filter
    by (repeat constructor; simpl; intuition discriminate).
  cbn [filter snd]. rewrite !keeps_value_spec.
  replace (nonempty (json_errors errors)) with (nonempty errors)
    by now destruct errors.
  destruct (nonempty (schema_errors schemas)); destruct (nonempty errors);
    cbn [map app]; unfold pruned_entry; cbn [fst snd];
    now rewrite ?remove_schema_section, ?remove_json_section by assumption.
Qed.

Lemma report_schema_errors_lines (entries : dict json) (res : list string) :
  report_schema_errors entries res = res ++ schema_lines entries.
Proof.
  unfold report_schema_errors, schema_lines. revert res.
  induction entries as [|kv rest IH]; intro res; simpl.
  - now rewrite app_nil_r.
  - rewrite IH. now rewrite <- app_assoc.
Qed.

Lemma report_json_errors_lines (errors : dict (list string))
    (res : list string) :
  report_json_errors (json_errors errors) res
  = Return (res ++ json_lines errors).
Proof.
  unfold json_lines. revert res.
  induction errors as [|[k l] rest IH]; intro res; simpl.
  - now rewrite app_nil_r.
  - rewrite IH. f_equal. rewrite map_map. simpl.
    rewrite <- !app_assoc. reflexivity.
Qed.

Lemma make_report_sections (schema_part json_part : option (dict json)) :
  make_report
    (JDict (match schema_part with
            | Some entries => [("schema_errors", JDict entries)]
            | None => []
            end
            ++ match json_part with
               | Some entries => [("json_errors", JDict entries)]
               | None => []
               end))
  = let res :=
      match schema_part with
      | Some entries =>
          report_schema_errors entries
            ([report_header now; LF] ++ [schema_section])
      | None => [report_header now; LF]
      end in
    match json_part with
    | Some entries => report_json_errors entries (res ++ [json_section])
    | None => Return res
    end.
Proof. destruct schema_part, json_part; reflexivity. Qed.

Lemma make_report_lines (schemas : dict schema_obj)
    (errors : dict (list string)) :
  NoDup (keys errors) ->
  make_report (remove_empty_from_dict (result_of schemas errors))
  = Return (report_lines schemas errors).
Proof.
  intro Hnd. rewrite remove_result by assumption. unfold report_lines.
  pose proof (make_report_sections
                (if nonempty (schema_errors schemas)
                 then Some (schema_errors schemas) else None)
                (if nonempty errors
                 then Some (json_errors (kept_errors errors)) else None))
    as Hsections.
  destruct (nonempty (schema_errors schemas)); destruct (nonempty errors);
    rewrite Hsections; cbv zeta;
    rewrite ?report_schema_errors_lines, ?report_json_errors_lines;
    cbn [app]; rewrite <- ?app_assoc, ?app_nil_r; reflexivity.
Qed.

(** X13.  A result that [run_checker] returns is pruned and rendered
    without a fault, and the report is the header and an empty line,
    then, if a schema is corrupted, the schema heading and two lines
    per corrupted schema, then, if the directory holds a document, the
    JSON heading and, for each document that has errors, its heading
    and one line per error whose message is not blank. *)
Theorem report_of_run (schemas : dict schema_obj) (files_paths : list path)
    (result : json) :
  run_checker schemas files_paths = Return result ->
  exists errors,
    result = result_of schemas errors
    /\ make_report (remove_empty_from_dict result)
       = Return (report_lines schemas errors).
Proof.
  intro Hrun. unfold run_checker in Hrun.
  destruct (run_checker_loop schemas files_paths (empty_errors files_paths))
    as [errors|f] eqn:Hloop; simpl in Hrun; [|discriminate].
  injection Hrun as <-. exists errors. split; [reflexivity|].
  apply make_report_lines.
  rewrite (run_checker_loop_keys _ _ _ _ Hloop).
  apply (pass_NoDup (fun _ : path => @nil string)). constructor.
Qed.

Lemma report_json_errors_extends (entries : list (string * json))
    (res res' : list string) :
  report_json_errors entries res = Return res' ->
  exists tail, res' = res ++ tail.
Proof.
  revert res. induction entries as [|[name errors] rest IH]; intros res Hrun;
    simpl in Hrun.
  - injection Hrun as <-. exists []. now rewrite app_nil_r.
  - destruct (py_iter errors) as [l|f]; simpl in Hrun; [|discriminate].
    destruct (IH _ Hrun) as [tail ->]. eexists.
    rewrite <- !app_assoc. reflexivity.
Qed.

Lemma json_part_extends (result : json) (res0 res : list string) :
  (has_json_errors <- py_contains result "json_errors" ;;
   if has_json_errors : bool then
     section <- py_subscript result "json_errors" ;;
     entries <- py_items section ;;
     report_json_errors entries (res0 ++ [json_section])
   else Return res0) = Return res ->
  exists tail, res = res0 ++ tail.
Proof.
  intro Hrun.
  destruct (py_contains result "json_errors") as [[|]|f]; cbn [bind] in Hrun;
    [| |discriminate].
  - destruct (py_subscript result "json_errors") as [section|f];
      cbn [bind] in Hrun; [|discriminate].
    destruct (py_items section) as [entries|f]; cbn [bind] in Hrun;
      [|discriminate].
    apply report_json_errors_extends in Hrun. destruct Hrun as [tail ->].
    eexists. rewrite <- app_assoc. reflexivity.
  - injection Hrun as <-. exists []. now rewrite app_nil_r.
Qed.

(** X14.  Whatever value it is given, a report that is built begins
    with the header line, which carries the time, and an empty line. *)
Theorem report_begins_with_header (result : json) (res : list string) :
  make_report result = Return res ->
  exists tail, res = report_header now :: LF :: tail.
Proof.
  unfold make_report. intro Hrun.
  destruct (py_contains result "schema_errors") as [[|]|f]; cbn [bind] in Hrun;
    [| |discriminate].
  - destruct (py_subscript result "schema_errors") as [section|f];
      cbn [bind] in Hrun; [|discriminate].
    destruct (py_items section) as [entries|f]; cbn [bind] in Hrun;
      [|discriminate].
    apply json_part_extends in Hrun. destruct Hrun as [tail ->].
    rewrite report_schema_errors_lines. eexists. reflexivity.
  - apply json_part_extends in Hrun. destruct Hrun as [tail ->].
    eexists. reflexivity.
Qed.

End MainFacts.

Lemma report_of_run_witness :
  exists errors,
    @make_report toy
      (remove_empty_from_dict
         (JDict
            [("schema_errors",
              JDict [("bad", JStr "Схема некорректна: Expecting value")]);
             ("json_errors",
              JDict [("doc1", JList []);
                     ("doc2",
                      JList [JStr "'age' is a required property";
                             JStr "'name' is a required property"])])]))
    = Return (@report_lines toy (@schema_loader toy [user_json; bad_json]) errors).
Proof.
  destruct (@report_of_run toy (@schema_loader toy [user_json; bad_json])
              [doc1; doc2] _ eq_refl) as [errors [_ Hreport]].
  exists errors. exact Hreport.
Defined.

Lemma report_begins_with_header_witness :
  exists tail,
    [report_header "2020-01-01 00:00:00"; LF; json_section]
    = report_header "2020-01-01 00:00:00" :: LF :: tail.
Proof.
  exact (@report_begins_with_header toy (JDict [("json_errors", JDict [])])
           _ eq_refl).
Defined.

(** ** Order *)

Lemma ltb_irrefl (a : string) : String.ltb a a = false.
Proof.
  unfold String.ltb.
  pose proof (proj2 (String_as_OT.cmp_eq a a) eq_refl) as Heq.
  unfold String_as_OT.cmp in Heq. now rewrite Heq.
Qed.

Lemma insert_by_filter {A} (key : A -> string) (x : A) (l : list A)
    (t : string) :
  filter (fun y => String.eqb (key y) t) (insert_by key x l)
  = filter (fun y => String.eqb (key y) t) (x :: l).
Proof.
  induction l as [|y rest IH]; [reflexivity|].
  cbn [insert_by]. destruct (String.ltb (key y) (key x)) eqn:Hlt;
    [|reflexivity].
  cbn [filter] in *. rewrite IH.
  destruct (String.eqb_spec (key y) t) as [Hy|Hy];
    destruct (String.eqb_spec (key x) t) as [Hx|Hx]; try reflexivity.
  rewrite Hy, Hx, ltb_irrefl in Hlt. discriminate.
Qed.

(** X15.  The sort of [check_data] is stable: violations with the same
    text come out in the order in which the engine yields them. *)
Theorem sorted_violations_stable (violations : list violation) (t : string) :
  filter (fun v => String.eqb (text v) t) (sorted text violations)
  = filter (fun v => String.eqb (text v) t) violations.
Proof.
  induction violations as [|x rest IH]; [reflexivity|].
  unfold sorted in *. cbn [fold_right]. rewrite insert_by_filter.
  cbn [filter]. now rewrite IH.
Qed.

Section OrderFacts.

Context {E : Engine}.

(** X16.  A document whose [event] names a registry entry and whose
    [data] is missing or null gets the data error only: the entry is
    not applied, be it a validator or a corrupted schema. *)
Theorem missing_data_errors (schemas : dict schema_obj) (l : list string)
    (p : path) (d : dict json) (name : string) (v : schema_obj) :
  reader p = inr (JDict d) ->
  get d "event" = Some (JStr name) ->
  get schemas name = Some v ->
  is_CorruptedSchema v = false ->
  is_None (json_get d "data") = true ->
  run_checker_body schemas l p = Return (l ++ [msg_no_data]).
Proof.
  intros Hread Hevent Hget Hcls Hdata.
  now rewrite (run_checker_body_named _ _ _ _ _ Hread Hevent), Hget, Hcls, Hdata.
Qed.

(** X17.  Where no two schema files share a stem, the registry lists
    the stems in the order of the directory listing. *)
Theorem registry_in_listing_order (listing : list path) :
  NoDup (map stem listing) -> keys (schema_loader listing) = map stem listing.
Proof.
  intro Hnd.
  change (schema_loader listing) with (pass loaded_entry listing []).
  now rewrite pass_keys_fresh by auto.
Qed.

End OrderFacts.

Lemma missing_data_errors_witness :
  @run_checker_body toy (@schema_loader toy [user_json]) []
    {| file_stem := "doc4"; file_load := inr (JDict [("event", JStr "user")]) |}
  = Return [msg_no_data].
Proof.
  exact (@missing_data_errors toy (@schema_loader toy [user_json]) []
           {| file_stem := "doc4";
              file_load := inr (JDict [("event", JStr "user")]) |}
           _ "user" _ eq_refl eq_refl eq_refl eq_refl eq_refl).
Defined.

Lemma registry_in_listing_order_witness :
  keys (@schema_loader toy [user_json; bad_json]) = ["user"; "bad"].
Proof.
  apply (@registry_in_listing_order toy [user_json; bad_json]).
  repeat constructor; simpl; intuition discriminate.
Defined.
